(** * Chunking and thresholded retrieval of the RAG proofs of concept

    A shallow embedding of the pure logic of
    - [01_az_rag_poc/src/embedding_pipeline.py] (classes [TextChunker],
      [AzureOpenAIEmbedder] and [EmbeddingPipeline]),
    - [01_az_rag_poc/src/retriever.py] (class [HybridRetriever]),
    - [01_az_rag_poc/src/rag_chain.py] (class [RAGChain]),
    - [01_az_rag_poc/src/azure_blob_loader.py] and
      [01_az_rag_poc/src/azure_search_manager.py] (loading and uploading),
    - [01_lc_rag_poc/src/retriever.py] (class [Retriever]),
    - [01_lc_rag_poc/src/rag_chain.py], [01_lc_rag_poc/src/embedding_pipeline.py]
      and [01_lc_rag_poc/src/document_loader.py] (the LangChain pipeline),
    together with the properties the specification states about them and
    further properties of the code. External services (the embedding, chat
    and search clients, the blob container, the PDF reader, the text
    splitter of LangChain) are parameters of the functions that call them.

    Python values are modelled as follows: a [str] is the list of its code
    points, an [int] is a [Z], a [float] is a binary64 [float], a [dict] used
    as a map is a [gmap] with string keys, and a [while] loop is a recursive
    function that consumes one unit of fuel per iteration. *)

From Stdlib Require Import ZArith Lia Floats Ascii String DecimalPos DecimalZ.
From stdpp Require Import gmap strings list.

Local Open Scope Z_scope.

(** ** Python built-ins used by the pipelines *)

Module Py.

(** A Python [str]: the sequence of its Unicode code points. *)
Definition str := list N.

(** String literals of the source, written as Rocq strings (one code
    point per character, all below 256). *)
Definition u (s : string) : str :=
  N_of_ascii <$> list_ascii_of_string s.

Definition len (s : str) : Z := Z.of_nat (length s).

(** [PySlice_AdjustIndices] for a step of 1: a negative index counts from
    the end, and the result is clamped to [0, n]. *)
Definition adjust_index (i n : Z) : Z :=
  if i <? 0 then Z.max 0 (i + n) else Z.min i n.

(** [s[start:stop]] *)
Definition slice (s : str) (start stop : Z) : str :=
  let lo := adjust_index start (len s) in
  let hi := adjust_index stop (len s) in
  take (Z.to_nat (hi - lo)) (drop (Z.to_nat lo) s).

(** Greatest index [i] with [lo <= i < hi] and [s[i] = c], scanning [s]
    from position [i0]; [found] when there is none. *)
Fixpoint rfind_scan (c : N) (s : str) (i0 lo hi found : Z) : Z :=
  match s with
  | [] => found
  | x :: s' =>
      rfind_scan c s' (i0 + 1) lo hi
        (if (lo <=? i0) && (i0 <? hi) && (x =? c)%N then i0 else found)
  end.

(** [s.rfind(c, start, stop)] for a one-character needle [c]. The bounds
    are adjusted as CPython's [ADJUST_INDICES] does; [-1] when [c] does not
    occur in the adjusted range. *)
Definition rfind (s : str) (c : N) (start stop : Z) : Z :=
  let n := len s in
  let hi := if n <? stop then n
            else if stop <? 0 then Z.max 0 (stop + n) else stop in
  let lo := if start <? 0 then Z.max 0 (start + n) else start in
  if hi - lo <? 1 then -1 else rfind_scan c s 0 lo hi (-1).

(** [str.isspace] on one code point ([_PyUnicode_IsWhitespace]). *)
Definition isspace (c : N) : bool :=
  ((9 <=? c) && (c <=? 13) || (28 <=? c) && (c <=? 32)
   || (c =? 133) || (c =? 160) || (c =? 5760)
   || (8192 <=? c) && (c <=? 8202)
   || (c =? 8232) || (c =? 8233) || (c =? 8239) || (c =? 8287)
   || (c =? 12288))%N.

Fixpoint lstrip (s : str) : str :=
  match s with
  | [] => []
  | c :: s' => if isspace c then lstrip s' else s
  end.

Definition rstrip (s : str) : str := reverse (lstrip (reverse s)).

(** [s.strip()] *)
Definition strip (s : str) : str := rstrip (lstrip s).

(** Truth value of a string: [if chunk:]. *)
Definition truthy (s : str) : bool :=
  match s with [] => false | _ => true end.

(** [sep.join(parts)] *)
Fixpoint join (sep : str) (parts : list str) : str :=
  match parts with
  | [] => []
  | [p] => p
  | p :: ps => p ++ sep ++ join sep ps
  end.

Definition dot : N := 46.
Definition newline : N := 10.

(** The decimal digits of a non-negative number, most significant first. *)
Fixpoint str_of_uint (d : Decimal.uint) : str :=
  match d with
  | Decimal.Nil => []
  | Decimal.D0 d => 48%N :: str_of_uint d
  | Decimal.D1 d => 49%N :: str_of_uint d
  | Decimal.D2 d => 50%N :: str_of_uint d
  | Decimal.D3 d => 51%N :: str_of_uint d
  | Decimal.D4 d => 52%N :: str_of_uint d
  | Decimal.D5 d => 53%N :: str_of_uint d
  | Decimal.D6 d => 54%N :: str_of_uint d
  | Decimal.D7 d => 55%N :: str_of_uint d
  | Decimal.D8 d => 56%N :: str_of_uint d
  | Decimal.D9 d => 57%N :: str_of_uint d
  end.

(** [str(n)] for an [int]. *)
Definition str_of_int (n : Z) : str :=
  match Z.to_int n with
  | Decimal.Pos d => str_of_uint d
  | Decimal.Neg d => u "-" ++ str_of_uint d
  end.

(** The values a metadata dictionary holds: [None], booleans, integers
    and strings. *)
Inductive value :=
| VNone
| VBool (b : bool)
| VInt (n : Z)
| VStr (s : str).

(** [str(v)], which is what an f-string field [{v}] inserts. *)
Definition str_of_value (v : value) : str :=
  match v with
  | VNone => u "None"
  | VBool b => if b then u "True" else u "False"
  | VInt n => str_of_int n
  | VStr s => s
  end.

(** [x >= y] on floats: the IEEE comparison, false when either is a NaN. *)
Definition float_ge (x y : float) : bool := PrimFloat.leb y x.

(** [n / d] rounded to the nearest integer, ties to the even one
    ([d] positive). *)
Definition round_half_even (n d : Z) : Z :=
  let q := n / d in
  let r := n mod d in
  if 2 * r <? d then q
  else if d <? 2 * r then q + 1
  else if Z.even q then q else q + 1.

(** [m * 2^e * 1000], correctly rounded to an integer. *)
Definition thousandths (m : positive) (e : Z) : Z :=
  if 0 <=? e then Z.pos m * 2 ^ e * 1000
  else round_half_even (Z.pos m * 1000) (2 ^ (- e)).

(** Three decimal digits of [n], for [0 <= n < 1000]. *)
Definition digits3 (n : Z) : str :=
  [ (48 + Z.to_N (n / 100))%N; (48 + Z.to_N (n / 10 mod 10))%N;
    (48 + Z.to_N (n mod 10))%N ].

Definition sign_str (negative : bool) : str :=
  if negative then u "-" else [].

(** [format(x, '.3f')], the f-string field [{x:.3f}]: the exact binary
    value of [x] rounded to three decimals, ties to even. *)
Definition format_3f (x : float) : str :=
  match Prim2SF x with
  | S754_nan => u "nan"
  | S754_infinity s => sign_str s ++ u "inf"
  | S754_zero s => sign_str s ++ u "0.000"
  | S754_finite s m e =>
      let q := thousandths m e in
      sign_str s ++ str_of_int (q / 1000) ++ [dot] ++ digits3 (q mod 1000)
  end.

(** A decimal digit. *)
Definition is_digit (x : N) : Prop := (48 <= x <= 57)%N.

(** [s] is an optional minus sign, at least one digit, a point and
    exactly three digits. *)
Definition three_decimals (s : str) : Prop :=
  exists sign int_part frac,
    s = sign ++ int_part ++ [dot] ++ frac
    /\ (sign = u "" \/ sign = u "-")
    /\ int_part <> [] /\ Forall is_digit int_part
    /\ length frac = 3%nat /\ Forall is_digit frac.

(** [x] is neither a NaN nor an infinity. *)
Definition finite (x : float) : bool :=
  match Prim2SF x with
  | S754_zero _ | S754_finite _ _ _ => true
  | _ => false
  end.

(** Outcome of a call that may raise. *)
Inductive result (A : Type) :=
| Ok (a : A)
| Raise (exception : string).
Arguments Ok {A} a.
Arguments Raise {A} exception.

End Py.

(** A document as both pipelines pass it around: the
    [{"page_content": ..., "metadata": ...}] dictionaries of the Azure
    pipeline and LangChain's [Document] objects have this shape. *)
Record Document := {
  page_content : Py.str;
  metadata : gmap string Py.value
}.

(** ** [TextChunker] of [01_az_rag_poc/src/embedding_pipeline.py] *)

Module TextChunker.
Import Py.

(** The two configuration attributes of a chunker. The tokenizer handle
    [self.encoding] comes from an external library and is used by
    [count_tokens] only. *)
Record t := { chunk_size : Z; chunk_overlap : Z }.

(** [TextChunker.__init__]: the arguments are stored as they are. *)
Definition __init__ (chunk_size chunk_overlap : Z) : result t :=
  Ok {| chunk_size := chunk_size; chunk_overlap := chunk_overlap |}.

(** The end position the loop body computes for the window that starts
    at [start]: [start + chunk_size], moved back to just after the last
    ['.'] or newline of the window when one lies beyond [start]. *)
Definition window_end (c : t) (text : str) (start : Z) : Z :=
  let end_ := start + chunk_size c in
  if end_ <? len text then
    let last_period := rfind text dot start end_ in
    let last_newline := rfind text newline start end_ in
    if (last_period >? start) || (last_newline >? start)
    then Z.max last_period last_newline + 1
    else end_
  else end_.

(** The [while] loop of [split_text]. Each iteration uses one unit of
    [fuel]; [iters] counts the iterations executed so far. [None] means
    the fuel ran out before the loop ended. *)
Fixpoint split_loop (fuel : nat) (c : t) (text : str)
    (start : Z) (chunks : list str) (iters : nat) : option (list str * nat) :=
  if start <? len text then
    match fuel with
    | O => None
    | S fuel' =>
        let end_ := window_end c text start in
        let chunk := strip (slice text start end_) in
        let chunks := if truthy chunk then chunks ++ [chunk] else chunks in
        let start := end_ - chunk_overlap c in
        if start >=? len text then Some (chunks, S iters)
        else split_loop fuel' c text start chunks (S iters)
    end
  else Some (chunks, iters).

(** [split_text] together with the number of loop iterations it ran. *)
Definition split_text_iters (fuel : nat) (c : t) (text : str)
    : option (list str * nat) :=
  if len text <=? chunk_size c then Some ([text], O)
  else split_loop fuel c text 0 [] O.

(** [TextChunker.split_text] *)
Definition split_text (fuel : nat) (c : t) (text : str) : option (list str) :=
  fst <$> split_text_iters fuel c text.

(** The dictionary built for the chunk at position [chunk_idx] of a
    document whose text gave [total_chunks] chunks:
    [{**metadata, "chunk": chunk_idx, "total_chunks": len(chunks)}]. *)
Definition chunked_doc (metadata : gmap string value)
    (chunk_idx : nat) (chunk : str) (total_chunks : nat) : Document :=
  {| page_content := chunk;
     metadata := <["total_chunks" := VInt (Z.of_nat total_chunks)]>
                   (<["chunk" := VInt (Z.of_nat chunk_idx)]> metadata) |}.

(** The inner loop [for chunk_idx, chunk in enumerate(chunks)], from
    index [chunk_idx] on, appending to [chunked_docs]. *)
Fixpoint append_chunks (metadata : gmap string value) (total_chunks : nat)
    (chunk_idx : nat) (chunks : list str) (chunked_docs : list Document)
    : list Document :=
  match chunks with
  | [] => chunked_docs
  | chunk :: chunks' =>
      append_chunks metadata total_chunks (S chunk_idx) chunks'
        (chunked_docs ++ [chunked_doc metadata chunk_idx chunk total_chunks])
  end.

(** The outer loop [for doc in documents]. *)
Fixpoint chunk_loop (fuel : nat) (c : t) (documents : list Document)
    (chunked_docs : list Document) : option (list Document) :=
  match documents with
  | [] => Some chunked_docs
  | doc :: documents' =>
      let text := page_content doc in
      let metadata := metadata doc in
      match split_text fuel c text with
      | None => None
      | Some chunks =>
          chunk_loop fuel c documents'
            (append_chunks metadata (length chunks) 0 chunks chunked_docs)
      end
  end.

(** A configuration the specification calls valid. *)
Definition valid (c : t) : Prop :=
  0 < chunk_size c /\ 0 <= chunk_overlap c < chunk_size c.

(** [ceil(a / b)] for a positive [b]. *)
Definition ceil_div (a b : Z) : Z := (a + b - 1) / b.

(** [split_text] returns, after at most [bound] iterations of its loop. *)
Definition terminates_within (c : t) (text : str) (bound : Z) : Prop :=
  exists fuel chunks iters,
    split_text_iters fuel c text = Some (chunks, iters)
    /\ Z.of_nat iters <= bound.

(** Every window that starts inside the text ends more than
    [chunk_overlap] characters after its start, so that the cursor
    moves forward. *)
Definition advances (c : t) (text : str) : bool :=
  forallb (fun start => start + chunk_overlap c <? window_end c text start)
    (seqZ 0 (len text)).

(** The text holds neither ['.'] nor a newline. *)
Definition no_boundary (text : str) : bool :=
  forallb (fun x => negb (x =? dot)%N && negb (x =? newline)%N) text.

(** [TextChunker.chunk_documents] *)
Definition chunk_documents (fuel : nat) (c : t) (documents : list Document)
    : option (list Document) :=
  chunk_loop fuel c documents [].

(** [d] is the chunk at position [chunk_idx] among the [chunks] of
    [parent]: it holds that chunk, its position, the number of chunks, and
    every other metadata entry of [parent] as it was. *)
Definition chunk_of (parent : Document) (chunks : list str)
    (chunk_idx : nat) (d : Document) : Prop :=
  chunks !! chunk_idx = Some (page_content d)
  /\ metadata d !! "chunk" = Some (VInt (Z.of_nat chunk_idx))
  /\ metadata d !! "total_chunks" = Some (VInt (Z.of_nat (length chunks)))
  /\ 0 <= Z.of_nat chunk_idx < Z.of_nat (length chunks)
  /\ forall key : string,
       key <> "chunk" -> key <> "total_chunks" ->
       metadata d !! key = metadata parent !! key.

(** [group] holds the chunks of [parent], one entry per chunk that
    [split_text] returns for its text, in the order of the chunks. *)
Definition chunks_of (fuel : nat) (c : t) (parent : Document)
    (group : list Document) : Prop :=
  exists chunks,
    split_text fuel c (page_content parent) = Some chunks
    /\ length group = length chunks
    /\ forall chunk_idx d,
         group !! chunk_idx = Some d -> chunk_of parent chunks chunk_idx d.




(** The configurations the specification wants [__init__] to reject. *)
Definition rejected (chunk_size chunk_overlap : Z) : Prop :=
  chunk_size <= 0 \/ chunk_overlap < 0 \/ chunk_overlap >= chunk_size.

End TextChunker.

(** ** [HybridRetriever] of [01_az_rag_poc/src/retriever.py] *)

Module HybridRetriever.
Import Py.

(** A retrieved document, as [retrieve] builds it. The keys ["content"]
    and ["metadata"] are read with [doc[...]] and are mandatory; the key
    ["score"] and the metadata entries are read with [.get] and may be
    absent. *)
Record doc := {
  content : str;
  metadata : gmap string value;
  score : option float
}.

(** The first line of an entry:
    [f"[Document {idx}] (Source: {source}, Page: {page}, Score: {score:.3f})\n"]. *)
Definition header (idx : nat) (source page : value) (score : float) : str :=
  u "[Document " ++ str_of_int (Z.of_nat idx)
    ++ u "] (Source: " ++ str_of_value source
    ++ u ", Page: " ++ str_of_value page
    ++ u ", Score: " ++ format_3f score ++ u ")" ++ [newline].

(** One entry of [context_parts]: the f-string of the loop body. *)
Definition context_part (idx : nat) (d : doc) : str :=
  let source := default (VStr (u "unknown")) (metadata d !! "source_file") in
  let page := default (VStr (u "?")) (metadata d !! "page") in
  let score := default 0%float (score d) in
  header idx source page score ++ content d ++ [newline].

(** The loop [for idx, doc in enumerate(documents, 1)], from index [idx]
    on, appending to [context_parts]. *)
Fixpoint format_loop (idx : nat) (documents : list doc)
    (context_parts : list str) : list str :=
  match documents with
  | [] => context_parts
  | d :: documents' =>
      format_loop (S idx) documents' (context_parts ++ [context_part idx d])
  end.

(** [HybridRetriever.format_context] *)
Definition format_context (documents : list doc) : str :=
  match documents with
  | [] => u "No relevant documents found."
  | _ => join [newline] (format_loop 1 documents [])
  end.

End HybridRetriever.

(** ** [Retriever] of [01_lc_rag_poc/src/retriever.py] *)

Module Retriever.
Import Py.

Section Search.
(** [self.vector_manager.similarity_search_with_score] and
    [settings.top_k_results]: the external search and its default
    result count. *)
Variable similarity_search_with_score : str -> Z -> list (Document * float).
Variable top_k_results : Z.

(** [k or settings.top_k_results] *)
Definition k_or_default (k : option Z) : Z :=
  match k with
  | Some k => if k =? 0 then top_k_results else k
  | None => top_k_results
  end.

(** [Retriever.retrieve_with_scores] *)
Definition retrieve_with_scores (query : str) (k : option Z)
    : list (Document * float) :=
  let k := k_or_default k in
  similarity_search_with_score query k.

(** The comprehension
    [[doc for doc, score in results_with_scores if score >= score_threshold]]. *)
Fixpoint filter_by_threshold (results_with_scores : list (Document * float))
    (score_threshold : float) : list Document :=
  match results_with_scores with
  | [] => []
  | (doc, score) :: rest =>
      if float_ge score score_threshold
      then doc :: filter_by_threshold rest score_threshold
      else filter_by_threshold rest score_threshold
  end.

(** [Retriever.retrieve_with_threshold] *)
Definition retrieve_with_threshold (query : str) (k : option Z)
    (score_threshold : float) : list Document :=
  let k := k_or_default k in
  let results_with_scores := retrieve_with_scores query (Some k) in
  filter_by_threshold results_with_scores score_threshold.

End Search.

(** One entry of [context_parts] of [format_retrieved_context]. *)
Definition context_part (i : nat) (d : Document) : str :=
  let source := default (VStr (u "unknown")) (metadata d !! "source_file") in
  let page := default (VStr (u "N/A")) (metadata d !! "page") in
  let content := strip (page_content d) in
  u "[Source " ++ str_of_int (Z.of_nat i) ++ u ": " ++ str_of_value source
    ++ u ", page " ++ str_of_value page ++ u "]" ++ [newline] ++ content.

(** The loop [for i, doc in enumerate(documents, 1)]. *)
Fixpoint format_loop (i : nat) (documents : list Document)
    (context_parts : list str) : list str :=
  match documents with
  | [] => context_parts
  | d :: documents' =>
      format_loop (S i) documents' (context_parts ++ [context_part i d])
  end.

(** [Retriever.format_retrieved_context] *)
Definition format_retrieved_context (documents : list Document) : str :=
  match documents with
  | [] => u "No relevant documents found."
  | _ =>
      join ([newline; newline] ++ u "---" ++ [newline; newline])
        (format_loop 1 documents [])
  end.

End Retriever.

(** ** Python lists and ranges *)

Module PyList.

(** [len(l)] *)
Definition llen {A} (l : list A) : Z := Z.of_nat (length l).

(** [l[start:stop]], with the index adjustment of [Py.slice]. *)
Definition lslice {A} (l : list A) (start stop : Z) : list A :=
  let lo := Py.adjust_index start (llen l) in
  let hi := Py.adjust_index stop (llen l) in
  take (Z.to_nat (hi - lo)) (drop (Z.to_nat lo) l).

(** [range(start, stop, step)] for a positive [step]. *)
Definition range (start stop step : Z) : list Z :=
  (fun k => start + k * step) <$> seqZ 0 ((stop - start + step - 1) / step).

End PyList.

(** ** [AzureOpenAIEmbedder] and [EmbeddingPipeline] of
    [01_az_rag_poc/src/embedding_pipeline.py] *)

Module AzureOpenAIEmbedder.
Import Py PyList.

(** [{**doc, "embedding": embedding}]: the entries of [doc] and one more. *)
Record embedded_doc := {
  doc : Document;
  embedding : list float
}.

Definition batch_size : Z := 16.

Section Client.
(** [self.client.embeddings.create]: the answer of the service to the
    call number [call] (counted from 0) with the given texts, either
    [response.data], one embedding per entry, or an exception. *)
Variable create : nat -> list str -> result (list (list float)).

(** The loop [for i in range(0, len(documents), batch_size)], from the
    call number [call] on. Besides [embedded_docs] it collects the texts of
    every call made to the service. *)
Fixpoint embed_loop (call : nat) (documents : list Document) (indices : list Z)
    (embedded_docs : list embedded_doc) (calls : list (list str))
    : list embedded_doc * list (list str) :=
  match indices with
  | [] => (embedded_docs, calls)
  | i :: indices' =>
      let batch := lslice documents i (i + batch_size) in
      let batch_texts := page_content <$> batch in
      match create call batch_texts with
      | Ok data =>
          embed_loop (S call) documents indices'
            (embedded_docs
               ++ zip_with (fun doc embedding_data =>
                              {| doc := doc; embedding := embedding_data |})
                    batch data)
            (calls ++ [batch_texts])
      | Raise _ =>
          embed_loop (S call) documents indices' embedded_docs
            (calls ++ [batch_texts])
      end
  end.

(** [total_batches] of [embed_documents] *)
Definition total_batches (documents : list Document) : Z :=
  (llen documents + batch_size - 1) / batch_size.

(** [AzureOpenAIEmbedder.embed_documents], with the calls it made. *)
Definition embed_documents_calls (documents : list Document)
    : list embedded_doc * list (list str) :=
  embed_loop 0 documents (range 0 (llen documents) batch_size) [] [].

(** [AzureOpenAIEmbedder.embed_documents] *)
Definition embed_documents (documents : list Document) : list embedded_doc :=
  (embed_documents_calls documents).1.


End Client.

End AzureOpenAIEmbedder.

(** ** Batches *)

Module Batches.
Import PyList.

(** The slices [l[i:i + size]] for [i] in [range(0, len(l), size)]: the
    batches that the loops of [embed_documents] and [upload_documents]
    visit. *)
Definition batches {A} (size : Z) (l : list A) : list (list A) :=
  (fun i => lslice l i (i + size)) <$> range 0 (llen l) size.

End Batches.

(** What [embed_documents] keeps of a batch: the whole batch when the
    call with its texts is answered, nothing when the call raises. *)
Module EmbedderBatches.
Import Py AzureOpenAIEmbedder.

Definition answered (create : nat -> list str -> result (list (list float)))
    (call : nat) (batch : list Document) : list Document :=
  match create call (page_content <$> batch) with
  | Ok _ => batch
  | Raise _ => []
  end.

End EmbedderBatches.

(** ** [HybridRetriever.retrieve] of [01_az_rag_poc/src/retriever.py] *)

Module HybridRetrieverRetrieve.
Import Py HybridRetriever.

(** A result of the search service, as [retrieve] reads it: ["content"]
    with [result["content"]], which raises [KeyError] when the entry is
    missing; ["@search.score"] and the other fields with [result.get]. *)
Record search_result := {
  result_content : option str;
  result_score : option float;
  result_fields : gmap string value
}.

(** The dictionary [doc] of the loop body. *)
Definition doc_of_result (content : str) (r : search_result) : doc :=
  {| content := content;
     metadata :=
       {[ "source_file" := default (VStr (u "")) (result_fields r !! "source_file");
          "page" := default (VInt 0) (result_fields r !! "page");
          "chunk" := default (VInt 0) (result_fields r !! "chunk") ]};
     score := Some (default 0%float (result_score r)) |}.

(** The loop [for result in results]. *)
Fixpoint retrieve_loop (results : list search_result) (documents : list doc)
    : result (list doc) :=
  match results with
  | [] => Ok documents
  | r :: results' =>
      match result_content r with
      | None => Raise "KeyError"
      | Some content =>
          retrieve_loop results' (documents ++ [doc_of_result content r])
      end
  end.

Section Clients.
(** The two services behind [retrieve]: [embed_query], the embedding of
    the query, and [self.search_client.search], the hybrid search for a
    query, its embedding and a result count; each answers or raises.
    [self_top_k] is [settings.top_k_results]. *)
Variable embed_query : str -> result (list float).
Variable search : str -> list float -> Z -> result (list search_result).
Variable self_top_k : Z.

(** [if top_k is None: top_k = self.top_k] *)
Definition top_k_or_default (top_k : option Z) : Z :=
  match top_k with None => self_top_k | Some k => k end.

(** [HybridRetriever.retrieve] *)
Definition retrieve (query : str) (top_k : option Z) : result (list doc) :=
  let top_k := top_k_or_default top_k in
  match embed_query query with
  | Raise e => Raise e
  | Ok query_embedding =>
      match search query query_embedding top_k with
      | Raise e => Raise e
      | Ok results => retrieve_loop results []
      end
  end.

End Clients.

(** [d] is what [retrieve] makes of the search result [r]. *)
Definition retrieved_from (r : search_result) (d : doc) : Prop :=
  result_content r = Some (content d)
  /\ metadata d !! "source_file"
     = Some (default (VStr (u "")) (result_fields r !! "source_file"))
  /\ metadata d !! "page" = Some (default (VInt 0) (result_fields r !! "page"))
  /\ metadata d !! "chunk" = Some (default (VInt 0) (result_fields r !! "chunk"))
  /\ score d = Some (default 0%float (result_score r)).

End HybridRetrieverRetrieve.

(** ** [RAGChain] of [01_az_rag_poc/src/rag_chain.py] *)

Module AzRAGChain.
Import Py HybridRetriever.

Definition quote : N := 34.

(** [RAGChain.create_prompt] *)
Definition create_prompt (query context : str) : str :=
  u "You are a helpful AI assistant that answers questions based on the provided documents."
    ++ [newline; newline]
    ++ u "**Instructions:**" ++ [newline]
    ++ u "- Answer the question using ONLY the information in the documents below"
    ++ [newline]
    ++ u "- If the answer is not in the documents, say " ++ [quote]
    ++ u "I don't have enough information to answer that question" ++ [quote]
    ++ [newline]
    ++ u "- Cite your sources by mentioning the document and page number"
    ++ [newline]
    ++ u "- Be concise and accurate" ++ [newline; newline]
    ++ u "**Documents:**" ++ [newline]
    ++ context ++ [newline; newline]
    ++ u "**Question:** " ++ query ++ [newline; newline]
    ++ u "**Answer:**".

(** [response.usage] *)
Record usage := {
  prompt_tokens : Z;
  completion_tokens : Z;
  total_tokens : Z
}.

(** What [generate_answer] returns: ["answer"] and ["usage"], the latter
    [{}] after a failure. *)
Record generated := {
  generated_answer : str;
  generated_usage : option usage
}.

(** One entry of ["sources"]. [None] stands where [.get] finds nothing. *)
Record source := {
  file : value;
  page : value;
  source_score : option float;
  preview : str
}.

(** What [query] returns. *)
Record response := {
  question : str;
  answer : str;
  sources : list source;
  response_usage : option usage
}.

(** The entry of ["sources"] for one document. *)
Definition source_of (d : doc) : source :=
  {| file := default VNone (metadata d !! "source_file");
     page := default VNone (metadata d !! "page");
     source_score := score d;
     preview := slice (content d) 0 150 ++ u "..." |}.

Section Clients.
(** [self.openai_client.chat.completions.create] for a system and a user
    message, read up to the answer text and the usage; any exception of
    the [try] block is a [Raise] with its message. [retrieve] is
    [self.retriever.retrieve] with the default [top_k]. *)
Variable chat : str -> str -> result (str * usage).
Variable retrieve : str -> result (list doc).

(** [RAGChain.generate_answer] *)
Definition generate_answer (query context : str) : generated :=
  let prompt := create_prompt query context in
  match chat (u "You are a helpful AI assistant specialized in answering questions based on provided documents.") prompt with
  | Ok (answer, usage) =>
      {| generated_answer := answer; generated_usage := Some usage |}
  | Raise e =>
      {| generated_answer := u "Error generating answer: " ++ u e;
         generated_usage := None |}
  end.

(** [RAGChain.query] *)
Definition query (question : str) : result response :=
  match retrieve question with
  | Raise e => Raise e
  | Ok documents =>
      match documents with
      | [] =>
          Ok {| question := question;
                answer := u "I don't have any relevant documents to answer this question.";
                sources := [];
                response_usage := None |}
      | _ =>
          let context := format_context documents in
          let result := generate_answer question context in
          Ok {| question := question;
                answer := generated_answer result;
                sources := source_of <$> documents;
                response_usage := generated_usage result |}
      end
  end.

End Clients.

End AzRAGChain.

(** ** Contiguous pieces of a text *)

Module Pieces.
Import Py.

(** [chunk] occurs in [text] as a run of consecutive characters. *)
Definition piece_of (chunk text : str) : Prop :=
  exists before after, text = before ++ chunk ++ after.

End Pieces.

(** ** Dictionaries that count *)

Module PyDict.
Import Py.

#[global] Instance value_eq_dec : EqDecision value.
Proof. solve_decision. Defined.

(** The key a value is filed under: [True] and [False] are equal to [1]
    and [0] and hash alike, so they are the same keys. *)
Definition as_key (v : value) : value :=
  match v with
  | VBool b => VInt (if b then 1 else 0)
  | _ => v
  end.

(** [a == b] on dictionary keys. *)
Definition key_eq (a b : value) : bool := bool_decide (as_key a = as_key b).

(** A [dict] from values to integers: its items in insertion order, no
    two keys equal. *)
Definition dict := list (value * Z).

(** [d.get(key, default)] *)
Fixpoint get (d : dict) (key : value) (default : Z) : Z :=
  match d with
  | [] => default
  | (k, v) :: d' => if key_eq k key then v else get d' key default
  end.

(** [key in d] *)
Fixpoint contains (d : dict) (key : value) : bool :=
  match d with
  | [] => false
  | (k, _) :: d' => key_eq k key || contains d' key
  end.

(** [d[key]] *)
Fixpoint getitem (d : dict) (key : value) : result Z :=
  match d with
  | [] => Raise "KeyError"
  | (k, v) :: d' => if key_eq k key then Ok v else getitem d' key
  end.

(** [d[key] = v]: an equal key keeps its place and its first spelling, a
    new key goes to the end. *)
Fixpoint setitem (d : dict) (key : value) (v : Z) : dict :=
  match d with
  | [] => [(key, v)]
  | (k, v') :: d' =>
      if key_eq k key then (k, v) :: d' else (k, v') :: setitem d' key v
  end.

(** [sum(xs)] *)
Definition sum (xs : list Z) : Z := foldl Z.add 0 xs.

End PyDict.

(** ** [Retriever.get_retrieval_stats] of [01_lc_rag_poc/src/retriever.py] *)

Module RetrieverStats.
Import Py PyList PyDict.

(** The dictionary that [get_retrieval_stats] returns: ["count"] alone
    for no documents, all three entries otherwise. *)
Record stats := {
  count : Z;
  sources : option dict;
  avg_length : option Z
}.

(** [doc.metadata.get('source_file', 'unknown')] *)
Definition source_file (doc : Document) : value :=
  default (VStr (u "unknown")) (metadata doc !! "source_file").

(** The loop [for doc in documents] over [sources]. *)
Fixpoint sources_loop (documents : list Document) (sources : dict) : dict :=
  match documents with
  | [] => sources
  | doc :: documents' =>
      let source := source_file doc in
      sources_loop documents' (setitem sources source (get sources source 0 + 1))
  end.

(** [Retriever.get_retrieval_stats] *)
Definition get_retrieval_stats (documents : list Document) : stats :=
  match documents with
  | [] => {| count := 0; sources := None; avg_length := None |}
  | _ =>
      let sources := sources_loop documents [] in
      {| count := llen documents;
         sources := Some sources;
         avg_length :=
           Some (sum ((fun doc => len (page_content doc)) <$> documents)
                 / llen documents) |}
  end.

(** The number of [documents] filed under [key]. *)
Definition filed_under (key : value) (documents : list Document) : Z :=
  llen (filter (fun doc => key_eq (source_file doc) key = true) documents).

End RetrieverStats.

(** ** [get_document_stats] of [01_az_rag_poc/src/azure_blob_loader.py] and
    of [01_lc_rag_poc/src/document_loader.py] *)

Module DocumentStats.
Import Py PyList PyDict.

(** The dictionary that both functions return; ["files"] is missing for
    no documents. *)
Record stats := {
  total_docs : Z;
  total_chars : Z;
  avg_chars_per_doc : Z;
  files : option dict
}.

(** [sum(len(doc["page_content"]) for doc in documents)] *)
Definition count_chars (documents : list Document) : Z :=
  sum ((fun doc => len (page_content doc)) <$> documents).

(** [doc["metadata"].get("source_file", "unknown")] *)
Definition source_file (doc : Document) : value :=
  default (VStr (u "unknown")) (metadata doc !! "source_file").

End DocumentStats.

Module AzureBlobDocumentLoaderStats.
Import Py PyList PyDict DocumentStats.

(** The loop [for doc in documents] of the Azure loader:
    [files[source] = files.get(source, 0) + 1]. *)
Fixpoint files_loop (documents : list Document) (files : dict) : dict :=
  match documents with
  | [] => files
  | doc :: documents' =>
      let source := source_file doc in
      files_loop documents' (setitem files source (get files source 0 + 1))
  end.

(** [AzureBlobDocumentLoader.get_document_stats] *)
Definition get_document_stats (documents : list Document) : stats :=
  match documents with
  | [] =>
      {| total_docs := 0; total_chars := 0; avg_chars_per_doc := 0;
         files := None |}
  | _ =>
      let total_chars := count_chars documents in
      let files := files_loop documents [] in
      {| total_docs := llen documents;
         total_chars := total_chars;
         avg_chars_per_doc := total_chars / llen documents;
         files := Some files |}
  end.

End AzureBlobDocumentLoaderStats.

Module DocumentLoaderStats.
Import Py PyList PyDict DocumentStats.

(** The loop [for doc in documents] of the LangChain loader:
    [if source not in files: files[source] = 0] and then
    [files[source] += 1], which reads [files[source]] and raises
    [KeyError] when the key is missing. *)
Fixpoint files_loop (documents : list Document) (files : dict) : result dict :=
  match documents with
  | [] => Ok files
  | doc :: documents' =>
      let source := source_file doc in
      let files := if contains files source then files
                   else setitem files source 0 in
      match getitem files source with
      | Raise e => Raise e
      | Ok n => files_loop documents' (setitem files source (n + 1))
      end
  end.

(** [DocumentLoader.get_document_stats] *)
Definition get_document_stats (documents : list Document) : result stats :=
  match documents with
  | [] =>
      Ok {| total_docs := 0; total_chars := 0; avg_chars_per_doc := 0;
            files := None |}
  | _ =>
      let total_chars := count_chars documents in
      match files_loop documents [] with
      | Raise e => Raise e
      | Ok files =>
          Ok {| total_docs := llen documents;
                total_chars := total_chars;
                avg_chars_per_doc := total_chars / llen documents;
                files := Some files |}
      end
  end.

End DocumentLoaderStats.

(** ** [AzureBlobDocumentLoader.load_documents] of
    [01_az_rag_poc/src/azure_blob_loader.py] *)

Module AzureBlobDocumentLoader.
Import Py PyList.

(** [s.endswith(suffix)] *)
Definition endswith (s suffix : str) : bool :=
  (length suffix <=? length s)%nat
  && bool_decide (drop (length s - length suffix) s = suffix).

(** The dictionary [doc] of one page. *)
Definition page_doc (name : str) (page_num total_pages : Z) (text : str)
    : Document :=
  {| page_content := text;
     metadata := {[ "source_file" := VStr name;
                    "page" := VInt page_num;
                    "total_pages" := VInt total_pages ]} |}.

(** The loop [for page_num, page in enumerate(pdf_reader.pages)], from
    page [page_num] on. An entry of [pages] is what [page.extract_text()]
    gives for that page: its text or an exception. On an exception the
    loop is left for the [except] branch of the caller, which keeps what
    [documents] holds so far. *)
Fixpoint pages_loop (name : str) (total_pages : Z) (page_num : Z)
    (pages : list (result str)) (documents : list Document) : list Document :=
  match pages with
  | [] => documents
  | Raise _ :: _ => documents
  | Ok text :: pages' =>
      pages_loop name total_pages (page_num + 1) pages'
        (if truthy (strip text)
         then documents ++ [page_doc name page_num total_pages text]
         else documents)
  end.

Section Container.
(** The storage container and the PDF reader. [list_blobs] is
    [self.container_client.list_blobs()], read up to the names of the
    blobs. [read_pdf name] is the download of the blob followed by
    [PdfReader]: the pages of the document, or the exception of either
    step. *)
Variable list_blobs : result (list str).
Variable read_pdf : str -> result (list (result str)).

(** The loop [for blob in pdf_blobs]. *)
Fixpoint blobs_loop (pdf_blobs : list str) (documents : list Document)
    : list Document :=
  match pdf_blobs with
  | [] => documents
  | name :: pdf_blobs' =>
      match read_pdf name with
      | Raise _ => blobs_loop pdf_blobs' documents
      | Ok pages =>
          blobs_loop pdf_blobs'
            (pages_loop name (llen pages) 0 pages documents)
      end
  end.

(** [AzureBlobDocumentLoader.load_documents] *)
Definition load_documents : result (list Document) :=
  match list_blobs with
  | Raise e => Raise e
  | Ok blob_list =>
      let pdf_blobs :=
        List.filter (fun name => endswith name (u ".pdf")) blob_list in
      match pdf_blobs with
      | [] => Ok []
      | _ => Ok (blobs_loop pdf_blobs [])
      end
  end.

(** The pages of a document that are read before one fails. *)
Fixpoint readable (pages : list (result str)) : list str :=
  match pages with
  | Ok text :: pages' => text :: readable pages'
  | _ => []
  end.

(** The documents of one blob: its readable pages that are not blank,
    each with its position among all the pages. *)
Definition blob_documents (name : str) : list Document :=
  match read_pdf name with
  | Raise _ => []
  | Ok pages =>
      List.filter (fun d => truthy (strip (page_content d)))
        (imap (fun page_num text =>
                 page_doc name (Z.of_nat page_num) (llen pages) text)
           (readable pages))
  end.

End Container.

End AzureBlobDocumentLoader.

(** ** [AzureSearchManager.upload_documents] of
    [01_az_rag_poc/src/azure_search_manager.py] *)

Module AzureSearchManager.
Import Py PyList AzureOpenAIEmbedder.

(** A document in the format of the search index. *)
Record search_doc := {
  id : str;
  content : str;
  search_embedding : list float;
  source_file : value;
  page : value;
  chunk : value
}.

(** The dictionary [search_doc] of the first loop. *)
Definition search_document (idx : nat) (d : embedded_doc) : search_doc :=
  {| id := u "doc_" ++ str_of_int (Z.of_nat idx);
     content := page_content (doc d);
     search_embedding := embedding d;
     source_file := default (VStr (u "")) (metadata (doc d) !! "source_file");
     page := default (VInt 0) (metadata (doc d) !! "page");
     chunk := default (VInt 0) (metadata (doc d) !! "chunk") |}.

(** The loop [for idx, doc in enumerate(documents)], from index [idx]
    on. *)
Fixpoint convert_loop (idx : nat) (documents : list embedded_doc)
    (search_documents : list search_doc) : list search_doc :=
  match documents with
  | [] => search_documents
  | d :: documents' =>
      convert_loop (S idx) documents'
        (search_documents ++ [search_document idx d])
  end.

Definition batch_size : Z := 100.

Section Client.
(** [self.search_client.upload_documents]: whether the service takes the
    batch of the call number [call] (counted from 0) or raises. *)
Variable upload : nat -> list search_doc -> result unit.

(** The loop [for i in range(0, len(search_documents), batch_size)], from
    the call number [call] on. It collects the batch of every call with
    whether the service took it. *)
Fixpoint upload_loop (call : nat) (search_documents : list search_doc)
    (indices : list Z) (calls : list (list search_doc * bool))
    : list (list search_doc * bool) :=
  match indices with
  | [] => calls
  | i :: indices' =>
      let batch := lslice search_documents i (i + batch_size) in
      match upload call batch with
      | Ok _ =>
          upload_loop (S call) search_documents indices' (calls ++ [(batch, true)])
      | Raise _ =>
          upload_loop (S call) search_documents indices' (calls ++ [(batch, false)])
      end
  end.

(** [AzureSearchManager.upload_documents], which returns nothing: the
    calls it makes to the service. *)
Definition upload_documents (documents : list embedded_doc)
    : list (list search_doc * bool) :=
  let search_documents := convert_loop 0 documents [] in
  upload_loop 0 search_documents
    (range 0 (llen search_documents) batch_size) [].

End Client.

End AzureSearchManager.

(** ** [EmbeddingPipeline] of [01_lc_rag_poc/src/embedding_pipeline.py] *)

Module LcEmbeddingPipeline.
Import Py PyList PyDict.

(** A [Document] object as the splitter returns it: its text and the
    address of its metadata dictionary. Two objects with the same address
    share one dictionary. *)
Record chunk := {
  chunk_content : str;
  metadata_at : nat
}.

(** The metadata dictionaries, by address. *)
Definition store := gmap nat (gmap string value).

(** [chunk.metadata] *)
Definition metadata_of (s : store) (c : chunk) : gmap string value :=
  s !!! metadata_at c.

(** The loop [for i, chunk in enumerate(chunks)] with
    [chunk.metadata['chunk_id'] = i], from index [i] on. *)
Fixpoint enrich_loop (i : Z) (chunks : list chunk) (s : store) : store :=
  match chunks with
  | [] => s
  | c :: chunks' =>
      enrich_loop (i + 1) chunks'
        (<[metadata_at c := <["chunk_id" := VInt i]> (metadata_of s c)]> s)
  end.

(** [a // b] on integers *)
Definition floordiv (a b : Z) : result Z :=
  if b =? 0 then Raise "ZeroDivisionError" else Ok (a / b).

Section Splitter.
(** [self.text_splitter.split_documents]: the chunks and the metadata
    dictionaries they point to. *)
Variable split_documents : list Document -> store * list chunk.

(** [EmbeddingPipeline.chunk_documents]. The average chunk size is
    computed for the log line only. *)
Definition chunk_documents (documents : list Document)
    : result (store * list chunk) :=
  let '(s, chunks) := split_documents documents in
  let s := enrich_loop 0 chunks s in
  match floordiv (sum (len ∘ chunk_content <$> chunks)) (llen chunks) with
  | Raise e => Raise e
  | Ok _ => Ok (s, chunks)
  end.

End Splitter.

(** [min(xs)] and [max(xs)] *)
Definition min_of (xs : list Z) : result Z :=
  match xs with
  | [] => Raise "ValueError"
  | x :: xs' => Ok (foldl Z.min x xs')
  end.

Definition max_of (xs : list Z) : result Z :=
  match xs with
  | [] => Raise "ValueError"
  | x :: xs' => Ok (foldl Z.max x xs')
  end.

(** The dictionary that [get_chunk_stats] returns for at least one
    chunk. *)
Record chunk_stats := {
  total_chunks : Z;
  min_size : Z;
  max_size : Z;
  avg_size : Z;
  total_chars : Z
}.

(** [EmbeddingPipeline.get_chunk_stats]; [None] is the empty dictionary. *)
Definition get_chunk_stats (chunks : list chunk) : result (option chunk_stats) :=
  match chunks with
  | [] => Ok None
  | _ =>
      let chunk_sizes := len ∘ chunk_content <$> chunks in
      match min_of chunk_sizes with
      | Raise e => Raise e
      | Ok min_size =>
          match max_of chunk_sizes with
          | Raise e => Raise e
          | Ok max_size =>
              match floordiv (sum chunk_sizes) (llen chunks) with
              | Raise e => Raise e
              | Ok avg_size =>
                  Ok (Some {| total_chunks := llen chunks;
                              min_size := min_size;
                              max_size := max_size;
                              avg_size := avg_size;
                              total_chars := sum chunk_sizes |})
              end
          end
      end
  end.

End LcEmbeddingPipeline.

(** ** [RAGChain] of [01_lc_rag_poc/src/rag_chain.py] *)

Module LcRAGChain.
Import Py PyList Retriever.

(** One entry of ["sources"]. *)
Record source := {
  file : value;
  page : value;
  source_content : str
}.

(** What [query] returns. ["sources"] and ["tokens_used"] are [None] when
    the dictionary has no such entry. *)
Record response := {
  answer : str;
  sources : option (list source);
  num_sources : Z;
  tokens_used : option (gmap string Z)
}.

(** The entry of ["sources"] for one document. *)
Definition source_of (d : Document) : source :=
  {| file := default (VStr (u "unknown")) (metadata d !! "source_file");
     page := default (VStr (u "N/A")) (metadata d !! "page");
     source_content := slice (page_content d) 0 200 ++ u "..." |}.

Section Clients.
(** [self.vector_manager.similarity_search] behind [Retriever.retrieve],
    [settings.top_k_results], and the language model: [invoke context
    question] is [self.llm.invoke] on the messages that the prompt template
    makes of the context and the question, read up to [response.content]
    and the ['token_usage'] entry of [response.response_metadata], if there
    is one. Each call answers or raises. *)
Variable similarity_search : str -> Z -> result (list Document).
Variable top_k_results : Z.
Variable invoke : str -> str -> result (str * option (gmap string Z)).

(** [Retriever.retrieve] *)
Definition retrieve (query : str) (k : option Z) : result (list Document) :=
  let k := k_or_default top_k_results k in
  similarity_search query k.

(** [RAGChain.query] *)
Definition query (question : str) (k : option Z) (return_sources : bool)
    : result response :=
  match retrieve question k with
  | Raise e => Raise e
  | Ok documents =>
      match documents with
      | [] =>
          Ok {| answer := u "I don't have any relevant information to answer that question.";
                sources := Some [];
                num_sources := 0;
                tokens_used := None |}
      | _ =>
          let context := format_retrieved_context documents in
          match invoke context question with
          | Raise e => Raise e
          | Ok (answer, token_usage) =>
              Ok {| answer := answer;
                    sources := if return_sources
                               then Some (source_of <$> documents)
                               else None;
                    num_sources := llen documents;
                    tokens_used := Some (default ∅ token_usage) |}
          end
      end
  end.

End Clients.

End LcRAGChain.

(** ** Scores that are not numbers *)

Module PyFloat.

(** [math.isnan(x)] *)
Definition isnan (x : float) : bool :=
  match Prim2SF x with
  | S754_nan => true
  | _ => false
  end.

End PyFloat.


(** * Properties *)

Import Py.
Set Warnings "-inexact-float".

(** ** The chunking loop *)

Section SplitLoop.
Import TextChunker.
Variable c : t.
Variable text : str.

(** More fuel does not change a result. *)
Lemma split_loop_fuel_mono fuel fuel' start chunks iters r :
  (fuel <= fuel')%nat ->
  split_loop fuel c text start chunks iters = Some r ->
  split_loop fuel' c text start chunks iters = Some r.
Proof.
  revert fuel' start chunks iters.
  induction fuel as [|fuel IH]; intros fuel' start chunks iters Hle H.
  - simpl in H. destruct fuel'; simpl; destruct (start <? len text); congruence.
  - destruct fuel' as [|fuel']; [lia|].
    simpl in *. destruct (start <? len text); [|exact H].
    destruct (_ >=? _); [exact H|].
    apply IH; [lia|exact H].
Qed.

(** The result does not depend on the fuel. *)
Lemma split_text_iters_deterministic fuel fuel' r r' :
  split_text_iters fuel c text = Some r ->
  split_text_iters fuel' c text = Some r' ->
  r = r'.
Proof.
  unfold split_text_iters. destruct (len text <=? chunk_size c); [congruence|].
  intros H H'.
  apply (split_loop_fuel_mono _ (Nat.max fuel fuel')) in H; [|lia].
  apply (split_loop_fuel_mono _ (Nat.max fuel fuel')) in H'; [|lia].
  congruence.
Qed.

(** A cursor that moves forward at every step reaches the end of the
    text after at most [len text - start] iterations. *)
Lemma split_loop_advancing fuel start chunks iters :
  advances c text = true ->
  0 <= start ->
  len text - start <= Z.of_nat fuel ->
  exists chunks' iters',
    split_loop fuel c text start chunks iters = Some (chunks', iters')
    /\ Z.of_nat iters' <= Z.of_nat iters + Z.max 0 (len text - start).
Proof.
  intros Hadv. revert start chunks iters.
  induction fuel as [|fuel IH]; intros start chunks iters Hs Hf.
  - simpl. destruct (Z.ltb_spec start (len text)); [lia|].
    eexists _, _. split; [reflexivity|lia].
  - simpl. destruct (Z.ltb_spec start (len text)) as [Hlt|Hge].
    + assert (Hw : start + chunk_overlap c < window_end c text start).
      { unfold advances in Hadv. rewrite forallb_forall in Hadv.
        apply Z.ltb_lt, Hadv. apply list_elem_of_In, elem_of_seqZ. lia. }
      destruct (Z.geb_spec (window_end c text start - chunk_overlap c) (len text)).
      * eexists _, _. split; [reflexivity|lia].
      * edestruct (IH (window_end c text start - chunk_overlap c)) as (ch & it & -> & Hit);
          [lia|lia|].
        eexists _, _. split; [reflexivity|]. lia.
    + eexists _, _. split; [reflexivity|lia].
Qed.

End SplitLoop.

Section NoBoundary.
Import TextChunker.

Lemma rfind_scan_absent ch s i0 lo hi found :
  Forall (fun x => x <> ch) s ->
  rfind_scan ch s i0 lo hi found = found.
Proof.
  intros H. revert i0 found.
  induction H as [|x s Hx _ IH]; intros i0 found; simpl; [reflexivity|].
  rewrite IH. destruct (N.eqb_spec x ch); [contradiction|].
  rewrite andb_false_r. reflexivity.
Qed.

Lemma rfind_absent s ch start stop :
  Forall (fun x => x <> ch) s -> rfind s ch start stop = -1.
Proof.
  intros H. unfold rfind. destruct (_ <? 1); [reflexivity|].
  apply rfind_scan_absent, H.
Qed.

Lemma no_boundary_absent text :
  no_boundary text = true ->
  Forall (fun x => x <> dot) text /\ Forall (fun x => x <> newline) text.
Proof.
  unfold no_boundary. induction text as [|x text IH]; simpl.
  - intros _. split; constructor.
  - intros [[Hd Hn]%andb_prop [IHd IHn]%IH]%andb_prop.
    apply negb_true_iff, N.eqb_neq in Hd, Hn.
    split; constructor; assumption.
Qed.

(** Without a sentence boundary every window is a hard cut. *)
Lemma window_end_no_boundary c text start :
  no_boundary text = true -> 0 <= start ->
  window_end c text start = start + chunk_size c.
Proof.
  intros [Hd Hn]%no_boundary_absent Hs. unfold window_end.
  destruct (_ <? len text); [|reflexivity].
  rewrite !rfind_absent by assumption.
  destruct (Z.gtb_spec (-1) start); [lia|]. reflexivity.
Qed.

Lemma ceil_div_step a d : 0 < d -> ceil_div a d = ceil_div (a - d) d + 1.
Proof.
  intros Hd. unfold ceil_div.
  replace (a + d - 1) with (a - d + d - 1 + 1 * d) by lia.
  apply Z.div_add. lia.
Qed.

Lemma ceil_div_nonneg a d : 0 < d -> 0 <= a -> 0 <= ceil_div a d.
Proof. intros. unfold ceil_div. apply Z.div_pos; lia. Qed.

Lemma ceil_div_pos a d : 0 < d -> 0 < a -> 1 <= ceil_div a d.
Proof.
  intros. rewrite (ceil_div_step a d) by assumption.
  pose proof (ceil_div_nonneg (a - d + d - 1) d).
  unfold ceil_div in *. assert (0 <= (a - d + d - 1) / d) by (apply Z.div_pos; lia).
  lia.
Qed.

(** Hard cuts move the cursor by [chunk_size - chunk_overlap] each time. *)
Lemma split_loop_no_boundary c text fuel start chunks iters :
  valid c -> no_boundary text = true ->
  0 <= start ->
  ceil_div (len text - start) (chunk_size c - chunk_overlap c) <= Z.of_nat fuel ->
  exists chunks' iters',
    split_loop fuel c text start chunks iters = Some (chunks', iters')
    /\ Z.of_nat iters'
       <= Z.of_nat iters
          + Z.max 0 (ceil_div (len text - start) (chunk_size c - chunk_overlap c)).
Proof.
  intros [Hsz Hov] Hnb. revert start chunks iters.
  induction fuel as [|fuel IH]; intros start chunks iters Hs Hf.
  - simpl. destruct (Z.ltb_spec start (len text)) as [Hlt|Hge].
    + pose proof (ceil_div_pos (len text - start) (chunk_size c - chunk_overlap c)).
      lia.
    + eexists _, _. split; [reflexivity|lia].
  - simpl. destruct (Z.ltb_spec start (len text)) as [Hlt|Hge].
    + rewrite window_end_no_boundary by assumption.
      pose proof (ceil_div_pos (len text - start) (chunk_size c - chunk_overlap c)).
      pose proof (ceil_div_step (len text - start) (chunk_size c - chunk_overlap c)).
      destruct (Z.geb_spec (start + chunk_size c - chunk_overlap c) (len text)).
      * eexists _, _. split; [reflexivity|lia].
      * edestruct (IH (start + chunk_size c - chunk_overlap c)) as (ch & it & -> & Hit).
        { lia. }
        { replace (len text - (start + chunk_size c - chunk_overlap c))
            with (len text - start - (chunk_size c - chunk_overlap c)) by lia.
          lia. }
        eexists _, _. split; [reflexivity|].
        replace (len text - (start + chunk_size c - chunk_overlap c))
          with (len text - start - (chunk_size c - chunk_overlap c)) in Hit by lia.
        lia.
    + eexists _, _. split; [reflexivity|lia].
Qed.

(** With an overlap of at most one character every window moves the
    cursor forward: a snapped end lies at least two characters after the
    start of its window. *)
Lemma advances_small_overlap c text :
  valid c -> chunk_overlap c <= 1 -> advances c text = true.
Proof.
  intros [Hsz Hov] H1. unfold advances. apply forallb_forall.
  intros start _. apply Z.ltb_lt. unfold window_end.
  destruct (_ <? len text); [|lia].
  destruct (Z.gtb_spec (rfind text dot start (start + chunk_size c)) start);
    destruct (Z.gtb_spec (rfind text newline start (start + chunk_size c)) start);
    simpl; lia.
Qed.

End NoBoundary.

(** ** Termination of [split_text] *)

Section SplitTermination.
Import TextChunker.

(** C1, as amended. For a valid configuration, [split_text] returns after
    at most [len(text)] loop iterations whenever every window moves the
    cursor forward, which is the case when [chunk_overlap <= 1]; and it
    returns after at most [ceil(len(text) / (chunk_size - chunk_overlap))]
    iterations when the text holds no ['.'] and no newline, so that no
    window end is snapped. *)
Theorem split_text_terminates_when_advancing (c : t) (text : str) :
  valid c ->
  (chunk_overlap c <= 1 \/ advances c text = true ->
   terminates_within c text (len text))
  /\ (no_boundary text = true ->
      terminates_within c text
        (ceil_div (len text) (chunk_size c - chunk_overlap c))).
Proof.
  intros Hv. pose proof Hv as [Hsz Hov].
  assert (Hlen : 0 <= len text) by (unfold len; lia).
  split.
  - intros Hadv.
    assert (Ha : advances c text = true).
    { destruct Hadv as [H1|Ha]; [apply advances_small_overlap|]; assumption. }
    unfold terminates_within, split_text_iters.
    destruct (len text <=? chunk_size c).
    + exists O, [text], O. split; [reflexivity|lia].
    + destruct (split_loop_advancing c text (Z.to_nat (len text)) 0 [] O Ha)
        as (chunks & iters & Heq & Hit); [lia|lia|].
      exists (Z.to_nat (len text)), chunks, iters. split; [exact Heq|lia].
  - intros Hnb. unfold terminates_within, split_text_iters.
    pose proof (ceil_div_nonneg (len text) (chunk_size c - chunk_overlap c)).
    destruct (len text <=? chunk_size c).
    + exists O, [text], O. split; [reflexivity|lia].
    + set (n := ceil_div (len text) (chunk_size c - chunk_overlap c)) in *.
      destruct (split_loop_no_boundary c text (Z.to_nat n) 0 [] O Hv Hnb)
        as (chunks & iters & Heq & Hit).
      { lia. }
      { rewrite Z.sub_0_r. fold n. lia. }
      rewrite Z.sub_0_r in Hit. fold n in Hit.
      exists (Z.to_nat n), chunks, iters. split; [exact Heq|lia].
Qed.

(** The amended C1 at [split_text("ab.cdefgh")] with [chunk_size = 5] and
    [chunk_overlap = 0], and at [split_text("abcdefghi")] with
    [chunk_size = 5] and [chunk_overlap = 2]. *)
Lemma split_text_terminates_when_advancing_witness :
  terminates_within {| chunk_size := 5; chunk_overlap := 0 |} (u "ab.cdefgh") 9
  /\ terminates_within {| chunk_size := 5; chunk_overlap := 2 |} (u "abcdefghi") 3.
Proof.
  split.
  - apply (split_text_terminates_when_advancing
             {| chunk_size := 5; chunk_overlap := 0 |} (u "ab.cdefgh")).
    + unfold valid; simpl; lia.
    + right. reflexivity.
  - apply (split_text_terminates_when_advancing
             {| chunk_size := 5; chunk_overlap := 2 |} (u "abcdefghi")).
    + unfold valid; simpl; lia.
    + reflexivity.
Defined.

(** C1 as stated fails: [split_text("ab.cdefgh")] with [chunk_size = 5]
    and [chunk_overlap = 0] is a valid call whose loop runs three times
    (windows ["ab."], ["cdefg"] and ["h"]), more than
    [ceil(9 / 5) = 2]. *)
Lemma split_text_exceeds_iteration_bound :
  valid {| chunk_size := 5; chunk_overlap := 0 |}
  /\ split_text_iters 3 {| chunk_size := 5; chunk_overlap := 0 |} (u "ab.cdefgh")
     = Some ([u "ab."; u "cdefg"; u "h"], 3%nat)
  /\ ~ terminates_within {| chunk_size := 5; chunk_overlap := 0 |} (u "ab.cdefgh")
         (ceil_div (len (u "ab.cdefgh")) (5 - 0)).
Proof.
  split; [unfold valid; simpl; lia|].
  assert (H3 : split_text_iters 3 {| chunk_size := 5; chunk_overlap := 0 |}
                 (u "ab.cdefgh")
               = Some ([u "ab."; u "cdefg"; u "h"], 3%nat)) by reflexivity.
  split; [exact H3|].
  intros (fuel & chunks & iters & Heq & Hle).
  pose proof (split_text_iters_deterministic _ _ _ _ _ _ Heq H3) as E.
  injection E as _ ->. vm_compute in Hle. apply Hle. reflexivity.
Qed.

(** One iteration of the loop, unfolded. *)
Lemma split_loop_step fuel c text start chunks iters :
  split_loop (S fuel) c text start chunks iters
  = if start <? len text then
      let end_ := window_end c text start in
      let chunk := strip (slice text start end_) in
      let chunks := if truthy chunk then chunks ++ [chunk] else chunks in
      let start := end_ - chunk_overlap c in
      if start >=? len text then Some (chunks, S iters)
      else split_loop fuel c text start chunks (S iters)
    else Some (chunks, iters).
Proof. reflexivity. Qed.

(** The cursor can stand still. In [split_text("a.bcdefgh")] with
    [chunk_size = 5] and [chunk_overlap = 2] the first window is snapped
    to ["a."], the cursor goes back to [2 - 2 = 0], and the loop never
    ends, whatever the fuel. *)
Lemma split_text_loops_forever fuel :
  valid {| chunk_size := 5; chunk_overlap := 2 |}
  /\ split_text fuel {| chunk_size := 5; chunk_overlap := 2 |} (u "a.bcdefgh")
     = None.
Proof.
  split; [unfold valid; simpl; lia|].
  unfold split_text, split_text_iters.
  change (len (u "a.bcdefgh") <=? _) with false. cbv iota.
  generalize (@nil str) as chunks, O as iters.
  induction fuel as [|fuel IH]; intros chunks iters; [reflexivity|].
  rewrite split_loop_step.
  change (0 <? len (u "a.bcdefgh")) with true. cbv iota zeta.
  change (window_end _ (u "a.bcdefgh") 0) with 2.
  change (2 - chunk_overlap _ >=? len (u "a.bcdefgh")) with false. cbv iota.
  change (2 - chunk_overlap {| chunk_size := 5; chunk_overlap := 2 |}) with 0.
  apply IH.
Qed.

End SplitTermination.

(** ** What [split_text] returns *)

Section SplitResults.
Import TextChunker.

(** C2 at [split_text("a.bcdefghijklmnop")] with [chunk_size = 10] and
    [chunk_overlap = 3], a valid call on a text longer than
    [chunk_size]. The first window is snapped to ["a."], the cursor goes
    back to [2 - 3 = -1], the slice [text[-1:9]] of the second iteration
    is empty, and the third window starts at [9 - 3 = 6]: the characters
    ["bcde"] at positions 2 to 5 are in no chunk, so no removal of
    overlaps rebuilds the text from the chunks. *)
Theorem split_text_loses_text :
  valid {| chunk_size := 10; chunk_overlap := 3 |}
  /\ len (u "a.bcdefghijklmnop") > 10
  /\ split_text 4 {| chunk_size := 10; chunk_overlap := 3 |}
       (u "a.bcdefghijklmnop")
     = Some [u "a."; u "fghijklmno"; u "mnop"]
  /\ Forall (fun x => x ∈ u "a.bcdefghijklmnop"
                      /\ Forall (fun chunk : str => x ∉ chunk)
                           [u "a."; u "fghijklmno"; u "mnop"])
       (u "bcde").
Proof.
  split; [unfold valid; simpl; lia|].
  split; [reflexivity|].
  split; [reflexivity|].
  apply (bool_decide_unpack _). vm_compute. exact I.
Qed.

(** C5 at the empty text: [len("") <= chunk_size] holds for the default
    configuration (and for every [chunk_size >= 0]), so the early return
    hands back [[""]], a list that holds one empty chunk. The loop, which
    drops empty chunks, is never entered. *)
Theorem split_text_empty_text (fuel : nat) :
  split_text fuel {| chunk_size := 1000; chunk_overlap := 200 |} (u "")
  = Some [u ""].
Proof. reflexivity. Qed.

(** Texts no longer than [chunk_size] come back as they are, neither
    trimmed nor checked for emptiness, without any loop iteration. *)
Lemma split_text_short (fuel : nat) (c : t) (text : str) :
  len text <= chunk_size c ->
  split_text_iters fuel c text = Some ([text], O).
Proof.
  intros H. unfold split_text_iters.
  destruct (Z.leb_spec (len text) (chunk_size c)); [reflexivity|lia].
Qed.

End SplitResults.


(** ** Construction *)

Section Construction.
Import TextChunker.

(** C4, as amended. [__init__] checks nothing: every pair of integers,
    valid or not, gives a chunker that holds the two values as passed, and
    no exception is raised. *)
Theorem init_accepts_every_configuration (chunk_size chunk_overlap : Z) :
  __init__ chunk_size chunk_overlap
  = Ok {| TextChunker.chunk_size := chunk_size;
          TextChunker.chunk_overlap := chunk_overlap |}.
Proof. reflexivity. Qed.

(** C4 as stated fails: [TextChunker(chunk_size=0, chunk_overlap=0)] has
    [chunk_size <= 0] and [chunk_overlap >= chunk_size], and construction
    succeeds. *)
Lemma init_accepts_rejected_configuration :
  rejected 0 0 /\ ~ exists exception, __init__ 0 0 = Raise exception.
Proof.
  split.
  - left. lia.
  - intros [exception H]. discriminate H.
Qed.

(** The configuration [(0, 0)] is felt at the first use only: on a
    non-empty text every window is empty, the cursor stays at 0 and the
    loop does not end. *)
Lemma split_text_zero_chunk_size fuel :
  split_text fuel {| chunk_size := 0; chunk_overlap := 0 |} (u "x") = None.
Proof.
  unfold split_text, split_text_iters.
  change (len (u "x") <=? _) with false. cbv iota.
  generalize (@nil str) as chunks, O as iters.
  induction fuel as [|fuel IH]; intros chunks iters; [reflexivity|].
  rewrite split_loop_step.
  change (0 <? len (u "x")) with true. cbv iota zeta.
  change (window_end _ (u "x") 0) with 0.
  change (0 - chunk_overlap _ >=? len (u "x")) with false. cbv iota.
  change (0 - chunk_overlap {| chunk_size := 0; chunk_overlap := 0 |}) with 0.
  apply IH.
Qed.

End Construction.

(** ** [chunk_documents] *)

Section ChunkDocuments.
Import TextChunker.

(** The chunks of one document, as the inner loop builds them. *)
Lemma append_chunks_imap md total chunk_idx chunks chunked_docs :
  append_chunks md total chunk_idx chunks chunked_docs
  = chunked_docs
    ++ imap (fun j chunk => chunked_doc md (chunk_idx + j) chunk total) chunks.
Proof.
  revert chunk_idx chunked_docs.
  induction chunks as [|chunk chunks IH]; intros chunk_idx chunked_docs; simpl.
  - symmetry. apply app_nil_r.
  - rewrite IH, <- app_assoc. simpl. rewrite Nat.add_0_r.
    do 2 f_equal. apply imap_ext. intros j x _. simpl. f_equal. lia.
Qed.

Lemma chunked_doc_chunk_of parent chunks chunk_idx chunk :
  chunks !! chunk_idx = Some chunk ->
  chunk_of parent chunks chunk_idx
    (chunked_doc (metadata parent) chunk_idx chunk (length chunks)).
Proof.
  intros Hl. unfold chunk_of, chunked_doc; simpl.
  split; [exact Hl|].
  split; [rewrite lookup_insert_ne by done; apply lookup_insert_eq|].
  split; [apply lookup_insert_eq|].
  split; [apply lookup_lt_Some in Hl; lia|].
  intros key H1 H2. rewrite !lookup_insert_ne by done. reflexivity.
Qed.

(** A chunk is determined by its parent and its position. *)
Lemma chunk_of_chunked_doc parent chunks chunk_idx d :
  chunk_of parent chunks chunk_idx d ->
  chunks !! chunk_idx = Some (page_content d)
  /\ d = chunked_doc (metadata parent) chunk_idx (page_content d) (length chunks).
Proof.
  intros (Hl & Hc & Ht & _ & Hk). split; [exact Hl|].
  destruct d as [content md]. unfold chunked_doc. simpl in *. f_equal.
  apply map_eq. intros key.
  destruct (decide (key = "total_chunks")) as [->|H1].
  { rewrite lookup_insert_eq. exact Ht. }
  rewrite lookup_insert_ne by done.
  destruct (decide (key = "chunk")) as [->|H2].
  { rewrite lookup_insert_eq. exact Hc. }
  rewrite lookup_insert_ne by done. apply Hk; assumption.
Qed.

Lemma chunks_of_imap fuel c parent group :
  chunks_of fuel c parent group <->
  exists chunks,
    split_text fuel c (page_content parent) = Some chunks
    /\ group = imap (fun j chunk =>
                       chunked_doc (metadata parent) j chunk (length chunks))
                 chunks.
Proof.
  split.
  - intros (chunks & Hs & Hlen & Hg). exists chunks. split; [exact Hs|].
    apply list_eq. intros i. rewrite list_lookup_imap.
    destruct (group !! i) as [d|] eqn:Hd.
    + destruct (chunk_of_chunked_doc _ _ _ _ (Hg i d Hd)) as [-> Heq].
      simpl. f_equal. exact Heq.
    + apply lookup_ge_None in Hd. rewrite Hlen in Hd.
      apply lookup_ge_None in Hd. rewrite Hd. reflexivity.
  - intros (chunks & Hs & ->). exists chunks. split; [exact Hs|].
    split; [apply length_imap|].
    intros i d. rewrite list_lookup_imap.
    destruct (chunks !! i) as [chunk|] eqn:Hc; [|discriminate].
    simpl. intros [= <-]. apply chunked_doc_chunk_of, Hc.
Qed.

Lemma chunk_loop_groups fuel c documents chunked_docs out :
  chunk_loop fuel c documents chunked_docs = Some out <->
  exists groups,
    out = chunked_docs ++ concat groups
    /\ Forall2 (chunks_of fuel c) documents groups.
Proof.
  revert chunked_docs.
  induction documents as [|doc documents IH]; intros chunked_docs; simpl.
  - split.
    + intros [= <-]. exists []. split; [symmetry; apply app_nil_r|constructor].
    + intros (groups & -> & Hf). inversion Hf; subst. simpl.
      rewrite app_nil_r. reflexivity.
  - destruct (split_text fuel c (page_content doc)) as [chunks|] eqn:Hs.
    + rewrite IH, append_chunks_imap. simpl. split.
      * intros (groups & -> & Hf).
        eexists (_ :: groups). split.
        { simpl. rewrite app_assoc. reflexivity. }
        constructor; [|exact Hf].
        apply chunks_of_imap. exists chunks. split; [exact Hs|reflexivity].
      * intros (groups & -> & Hf).
        inversion Hf as [|? group ? groups' Hg Hf']; subst.
        exists groups'. split; [|exact Hf'].
        apply chunks_of_imap in Hg as (chunks' & Hs' & ->).
        rewrite Hs in Hs'. injection Hs' as <-.
        simpl. rewrite app_assoc. reflexivity.
    + split; [discriminate|].
      intros (groups & -> & Hf).
      inversion Hf as [|? group ? groups' Hg Hf']; subst.
      destruct Hg as (chunks & Hs' & _). congruence.
Qed.

(** C9. [chunk_documents] returns exactly when [split_text] returns for
    every document, and its result is then the concatenation, in the order
    of the documents, of one group per document; the group of a document
    holds one entry per chunk of its text, in chunk order, and the entry
    at position [i] of [n] carries that chunk, ["chunk" = i] with
    [0 <= i < n], ["total_chunks" = n], and every other metadata entry of
    the document unchanged. *)
Theorem chunk_documents_groups (fuel : nat) (c : t)
    (documents chunked_docs : list Document) :
  chunk_documents fuel c documents = Some chunked_docs <->
  exists groups,
    chunked_docs = concat groups
    /\ Forall2 (chunks_of fuel c) documents groups.
Proof. unfold chunk_documents. apply chunk_loop_groups. Qed.

(** C6 at one whitespace-only document under the default configuration:
    its text is no longer than [chunk_size], so [split_text] returns it
    untouched and [chunk_documents] emits a chunk that is empty after
    trimming. *)
Theorem chunk_documents_whitespace_document (fuel : nat) :
  chunk_documents fuel {| chunk_size := 1000; chunk_overlap := 200 |}
    [ {| page_content := u "   "; metadata := ∅ |} ]
  = Some [ chunked_doc ∅ 0 (u "   ") 1 ]
  /\ strip (u "   ") = u "".
Proof. split; reflexivity. Qed.

(** Second scenario of the specification: one short document gives one
    chunk with index 0 of 1. *)
Example chunk_documents_short :
  chunk_documents 0 {| chunk_size := 1000; chunk_overlap := 200 |}
    [ {| page_content := u "short";
         metadata := {[ "source_file" := VStr (u "f.pdf"); "page" := VInt 0 ]} |} ]
  = Some [ {| page_content := u "short";
              metadata := {[ "source_file" := VStr (u "f.pdf"); "page" := VInt 0;
                             "chunk" := VInt 0; "total_chunks" := VInt 1 ]} |} ].
Proof. vm_compute. reflexivity. Qed.

End ChunkDocuments.


(** ** Formatting a score *)

Section Format3f.

Lemma str_of_uint_digits d : Forall is_digit (str_of_uint d).
Proof. induction d; simpl; constructor; try assumption; unfold is_digit; lia. Qed.

Lemma str_of_uint_nonnil d : d <> Decimal.Nil -> str_of_uint d <> [].
Proof. destruct d; simpl; congruence. Qed.

Lemma str_of_int_digits n :
  0 <= n -> str_of_int n <> [] /\ Forall is_digit (str_of_int n).
Proof.
  intros Hn. unfold str_of_int. destruct n as [|p|p]; simpl; [| |lia].
  - split; [discriminate|]. repeat constructor; unfold is_digit; lia.
  - split; [|apply str_of_uint_digits].
    apply str_of_uint_nonnil, Unsigned.to_uint_nonnil.
Qed.

Lemma round_half_even_nonneg n d : 0 <= n -> 0 < d -> 0 <= round_half_even n d.
Proof.
  intros Hn Hd. unfold round_half_even.
  assert (0 <= n / d) by (apply Z.div_pos; lia).
  repeat destruct (_ <? _); try destruct (Z.even _); lia.
Qed.

Lemma thousandths_nonneg m e : 0 <= thousandths m e.
Proof.
  unfold thousandths. destruct (Z.leb_spec 0 e).
  - assert (0 <= 2 ^ e) by (apply Z.pow_nonneg; lia). nia.
  - apply round_half_even_nonneg; [lia|]. apply Z.pow_pos_nonneg; lia.
Qed.

Lemma digits3_digits n :
  0 <= n < 1000 -> length (digits3 n) = 3%nat /\ Forall is_digit (digits3 n).
Proof.
  intros Hn. split; [reflexivity|]. unfold digits3, is_digit.
  pose proof (Z.div_mod n 100). pose proof (Z.mod_pos_bound n 100).
  pose proof (Z.mod_pos_bound (n / 10) 10). pose proof (Z.mod_pos_bound n 10).
  repeat constructor; lia.
Qed.

(** A finite score is printed with exactly three decimals. *)
Lemma format_3f_three_decimals x :
  finite x = true -> three_decimals (format_3f x).
Proof.
  unfold finite, format_3f. destruct (Prim2SF x) as [s|s| |s m e]; try discriminate.
  - intros _. exists (sign_str s), [48%N], [48%N; 48%N; 48%N].
    split; [reflexivity|].
    split; [destruct s; auto|].
    split; [discriminate|].
    split; [repeat constructor; unfold is_digit; lia|].
    split; [reflexivity|repeat constructor; unfold is_digit; lia].
  - intros _. cbv zeta.
    pose proof (thousandths_nonneg m e) as Hq.
    destruct (str_of_int_digits (thousandths m e / 1000)) as [Hne Hd].
    { apply Z.div_pos; lia. }
    destruct (digits3_digits (thousandths m e mod 1000)) as [Hl Hf].
    { apply Z.mod_pos_bound. lia. }
    eexists (sign_str s), _, _. split; [reflexivity|].
    split; [destruct s; auto|]. auto.
Qed.

End Format3f.

(** ** Threshold filtering *)

Section Threshold.
Import Retriever.

(** C3. The comprehension of [retrieve_with_threshold] keeps exactly the
    documents whose score is [>=] the threshold, in the order of the
    search results and without any other document; it is a subsequence of
    the results, it is empty when no score reaches the threshold, and
    [retrieve_with_threshold] applies it to what the search returns. *)
Theorem filter_by_threshold_exact (results : list (Document * float)) (t : float) :
  filter_by_threshold results t
  = (filter (fun r => float_ge r.2 t = true) results).*1
  /\ filter_by_threshold results t `sublist_of` results.*1
  /\ ((forall r, r ∈ results -> float_ge r.2 t = false) ->
      filter_by_threshold results t = [])
  /\ forall search top_k query k,
       retrieve_with_threshold search top_k query k t
       = filter_by_threshold (search query (k_or_default top_k k)) t.
Proof.
  assert (Hf : filter_by_threshold results t
               = (filter (fun r => float_ge r.2 t = true) results).*1).
  { induction results as [|[doc score] results IH]; [reflexivity|].
    simpl. rewrite filter_cons. simpl.
    destruct (float_ge score t) eqn:Hs.
    - rewrite decide_True by reflexivity. simpl. f_equal. exact IH.
    - rewrite decide_False by discriminate. exact IH. }
  split; [exact Hf|]. split; [|split].
  - rewrite Hf. apply fmap_sublist, sublist_filter.
  - intros Hnone. rewrite Hf. clear Hf.
    induction results as [|r results IH]; [reflexivity|].
    rewrite filter_cons, decide_False.
    + apply IH. intros r' Hr'. apply Hnone. right. exact Hr'.
    + rewrite (Hnone r) by left. discriminate.
  - intros search top_k query k.
    unfold retrieve_with_threshold, retrieve_with_scores. f_equal. f_equal.
    unfold k_or_default at 1.
    destruct (Z.eqb_spec (k_or_default top_k k) 0) as [E|]; [|reflexivity].
    unfold k_or_default in *. destruct k as [k|]; [|congruence].
    destruct (Z.eqb_spec k 0); congruence.
Qed.

(** Third scenario of the specification: scores 0.9, 0.5 and 0.2 against
    the threshold 0.6 leave the first document. *)
Example filter_by_threshold_scenario (a b c : Document) :
  filter_by_threshold [(a, 0.9%float); (b, 0.5%float); (c, 0.2%float)] 0.6%float
  = [a].
Proof. reflexivity. Qed.

End Threshold.

(** ** Formatting the context *)

Section FormatContext.
Import HybridRetriever.

Lemma join_nonempty sep part parts : part <> [] -> join sep (part :: parts) <> [].
Proof. destruct part, parts; simpl; congruence. Qed.

Lemma format_loop_imap idx documents context_parts :
  format_loop idx documents context_parts
  = context_parts ++ imap (fun j d => context_part (idx + j) d) documents.
Proof.
  revert idx context_parts.
  induction documents as [|d documents IH]; intros idx context_parts; simpl.
  - symmetry. apply app_nil_r.
  - rewrite IH, <- app_assoc. simpl. rewrite Nat.add_0_r.
    do 2 f_equal. apply imap_ext. intros j x _. simpl. f_equal. lia.
Qed.

Lemma format_context_parts documents :
  documents <> [] ->
  format_context documents
  = join [newline] (imap (fun j d => context_part (S j) d) documents).
Proof.
  intros Hne. unfold format_context. destruct documents as [|d documents]; [done|].
  rewrite format_loop_imap. reflexivity.
Qed.

Lemma lc_format_loop_imap i documents context_parts :
  Retriever.format_loop i documents context_parts
  = context_parts ++ imap (fun j d => Retriever.context_part (i + j) d) documents.
Proof.
  revert i context_parts.
  induction documents as [|d documents IH]; intros i context_parts; simpl.
  - symmetry. apply app_nil_r.
  - rewrite IH, <- app_assoc. simpl. rewrite Nat.add_0_r.
    do 2 f_equal. apply imap_ext. intros j x _. simpl. f_equal. lia.
Qed.

(** C7. On the empty sequence both [format_context] and
    [format_retrieved_context] return ["No relevant documents found."];
    neither function ever returns the empty string. *)
Theorem format_context_empty_sentinel :
  format_context [] = u "No relevant documents found."
  /\ Retriever.format_retrieved_context [] = u "No relevant documents found."
  /\ (forall documents, format_context documents <> u "")
  /\ (forall documents, Retriever.format_retrieved_context documents <> u "").
Proof.
  split; [reflexivity|]. split; [reflexivity|]. split.
  - intros [|d documents]; [discriminate|].
    unfold format_context. rewrite format_loop_imap, app_nil_l, imap_cons.
    apply join_nonempty. unfold context_part, header.
    change (u "[Document ") with (91%N :: u "Document "). discriminate.
  - intros [|d documents]; [discriminate|].
    unfold Retriever.format_retrieved_context.
    rewrite lc_format_loop_imap, app_nil_l, imap_cons.
    apply join_nonempty. unfold Retriever.context_part.
    change (u "[Source ") with (91%N :: u "Source "). discriminate.
Qed.

(** The fields of one entry, with the values that stand in for missing
    ones. *)
Lemma context_part_fields idx d :
  exists source page score_text,
    context_part idx d
    = u "[Document " ++ str_of_int (Z.of_nat idx) ++ u "] (Source: " ++ source
        ++ u ", Page: " ++ page ++ u ", Score: " ++ score_text ++ u ")"
        ++ [newline] ++ content d ++ [newline]
    /\ source = str_of_value (default (VStr (u "unknown")) (metadata d !! "source_file"))
    /\ page = str_of_value (default (VStr (u "?")) (metadata d !! "page"))
    /\ score_text = format_3f (default 0%float (score d)).
Proof.
  eexists _, _, _. split; [|split; [reflexivity|split; reflexivity]].
  unfold context_part, header. rewrite <- !app_assoc. reflexivity.
Qed.

End FormatContext.

Section ContextBlocks.
Import HybridRetriever.

(** C8, as amended. For a non-empty sequence [format_context] joins, with
    a newline, one block per document in the order of the sequence; the
    block at 1-based position [i + 1] is the line
    ["[Document i+1] (Source: s, Page: p, Score: x)"] built from the
    source file, the page and the score of [documents[i]], the score being
    printed with exactly three decimals when it is finite, followed by the
    content of [documents[i]] as it is (not trimmed) and a newline. *)
Theorem format_context_blocks (documents : list doc) :
  documents <> [] ->
  exists parts,
    format_context documents = join [newline] parts
    /\ length parts = length documents
    /\ forall i d, documents !! i = Some d ->
         exists source page score_text,
           parts !! i
           = Some (u "[Document " ++ str_of_int (Z.of_nat (S i))
                     ++ u "] (Source: " ++ source ++ u ", Page: " ++ page
                     ++ u ", Score: " ++ score_text ++ u ")" ++ [newline]
                     ++ content d ++ [newline])
           /\ (forall v, metadata d !! "source_file" = Some v ->
               source = str_of_value v)
           /\ (forall v, metadata d !! "page" = Some v -> page = str_of_value v)
           /\ (forall x, score d = Some x ->
               score_text = format_3f x
               /\ (finite x = true -> three_decimals score_text)).
Proof.
  intros Hne. eexists. split; [apply format_context_parts, Hne|].
  split; [apply length_imap|].
  intros i d Hd. rewrite list_lookup_imap, Hd. simpl.
  destruct (context_part_fields (S i) d) as (source & page & score_text & -> & Hs & Hp & Hx).
  exists source, page, score_text. split; [reflexivity|].
  split; [intros v Hv; rewrite Hs, Hv; reflexivity|].
  split; [intros v Hv; rewrite Hp, Hv; reflexivity|].
  intros x Hsc. rewrite Hx, Hsc. simpl. split; [reflexivity|].
  apply format_3f_three_decimals.
Qed.

(** The amended C8 at the fifth scenario of the specification. *)
Lemma format_context_blocks_witness :
  exists parts,
    format_context
      [ {| content := u "X";
           metadata := {[ "source_file" := VStr (u "a.pdf"); "page" := VInt 1 ]};
           score := Some 0.812%float |} ]
    = join [newline] parts
    /\ length parts = 1%nat.
Proof.
  destruct (format_context_blocks
              [ {| content := u "X";
                   metadata := {[ "source_file" := VStr (u "a.pdf"); "page" := VInt 1 ]};
                   score := Some 0.812%float |} ])
    as (parts & H1 & H2 & _); [discriminate|].
  exists parts. split; [exact H1|exact H2].
Defined.

(** C8 as stated fails: for a document whose content is [" X "] the
    header line is followed by [" X "], not by the trimmed content ["X"]. *)
Lemma format_context_keeps_whitespace :
  format_context
    [ {| content := u " X ";
         metadata := {[ "source_file" := VStr (u "a.pdf"); "page" := VInt 1 ]};
         score := Some 0.812%float |} ]
  = u "[Document 1] (Source: a.pdf, Page: 1, Score: 0.812)" ++ [newline]
      ++ u " X " ++ [newline]
  /\ strip (u " X ") = u "X"
  /\ ~ exists rest,
         format_context
           [ {| content := u " X ";
                metadata := {[ "source_file" := VStr (u "a.pdf"); "page" := VInt 1 ]};
                score := Some 0.812%float |} ]
         = header 1 (VStr (u "a.pdf")) (VInt 1) 0.812%float
             ++ strip (u " X ") ++ rest.
Proof.
  split; [vm_compute; reflexivity|]. split; [reflexivity|].
  intros [rest H]. vm_compute in H. discriminate H.
Qed.

(** C10. For every sequence and every document [d] at a position [i] of
    it, [format_context] returns the blocks joined by newlines, and the
    block of [d] reads ["unknown"] for a missing source file, ["?"] for a
    missing page and ["0.000"], the value 0.0, for a missing score. *)
Theorem format_context_missing_metadata (documents : list doc) (i : nat) (d : doc) :
  documents !! i = Some d ->
  exists parts source page score_text,
    format_context documents = join [newline] parts
    /\ length parts = length documents
    /\ parts !! i
       = Some (u "[Document " ++ str_of_int (Z.of_nat (S i))
                 ++ u "] (Source: " ++ source ++ u ", Page: " ++ page
                 ++ u ", Score: " ++ score_text ++ u ")" ++ [newline]
                 ++ content d ++ [newline])
    /\ (metadata d !! "source_file" = None -> source = u "unknown")
    /\ (metadata d !! "page" = None -> page = u "?")
    /\ (score d = None ->
        score_text = format_3f 0%float /\ score_text = u "0.000").
Proof.
  intros Hd.
  assert (Hne : documents <> []) by (intros ->; discriminate Hd).
  destruct (context_part_fields (S i) d) as (source & page & score_text & E & Hs & Hp & Hx).
  eexists _, source, page, score_text. split; [apply format_context_parts, Hne|].
  split; [apply length_imap|].
  split; [rewrite list_lookup_imap, Hd; simpl; rewrite E; reflexivity|].
  split; [intros Hn; rewrite Hs, Hn; reflexivity|].
  split; [intros Hn; rewrite Hp, Hn; reflexivity|].
  intros Hn. rewrite Hx, Hn. split; reflexivity.
Qed.

(** C10 at a single document that has a content and nothing else. *)
Lemma format_context_missing_metadata_witness :
  format_context [ {| content := u "X"; metadata := ∅; score := None |} ]
  = u "[Document 1] (Source: unknown, Page: ?, Score: 0.000)" ++ [newline]
      ++ u "X" ++ [newline].
Proof.
  destruct (format_context_missing_metadata
              [ {| content := u "X"; metadata := ∅; score := None |} ] 0
              {| content := u "X"; metadata := ∅; score := None |} eq_refl)
    as (parts & source & page & score_text & H & Hl & Hp & Hs & Hpg & Hx).
  rewrite H.
  destruct parts as [|part [|? ?]]; [discriminate Hl| |discriminate Hl].
  injection Hp as ->.
  rewrite (Hs eq_refl), (Hpg eq_refl), (proj2 (Hx eq_refl)). reflexivity.
Defined.

End ContextBlocks.

(** [format_retrieved_context] of the LangChain pipeline prints no score
    and trims the content; its blocks are joined by a rule. *)
Example format_retrieved_context_scenario :
  Retriever.format_retrieved_context
    [ {| page_content := u " X ";
         metadata := {[ "source_file" := VStr (u "a.pdf"); "page" := VInt 1 ]} |};
      {| page_content := u "Y"; metadata := ∅ |} ]
  = u "[Source 1: a.pdf, page 1]" ++ [newline] ++ u "X"
      ++ [newline; newline] ++ u "---" ++ [newline; newline]
      ++ u "[Source 2: unknown, page N/A]" ++ [newline] ++ u "Y".
Proof. vm_compute. reflexivity. Qed.

(** ** Chunks of the loop are trimmed and never empty *)

Section Trimmed.
Import TextChunker.

Lemma lstrip_idempotent s : lstrip (lstrip s) = lstrip s.
Proof.
  induction s as [|x s IH]; [reflexivity|]. simpl.
  destruct (isspace x) eqn:Hx; [exact IH|]. simpl. rewrite Hx. reflexivity.
Qed.

Lemma lstrip_snoc s x : isspace x = false -> lstrip (s ++ [x]) = lstrip s ++ [x].
Proof.
  intros Hx. induction s as [|y s IH]; simpl.
  - rewrite Hx. reflexivity.
  - destruct (isspace y); [exact IH|reflexivity].
Qed.

Lemma rstrip_cons x s : isspace x = false -> rstrip (x :: s) = x :: rstrip s.
Proof.
  intros Hx. unfold rstrip. rewrite reverse_cons, lstrip_snoc by exact Hx.
  rewrite reverse_app. reflexivity.
Qed.

Lemma rstrip_idempotent s : rstrip (rstrip s) = rstrip s.
Proof.
  unfold rstrip. rewrite reverse_involutive, lstrip_idempotent. reflexivity.
Qed.

Lemma lstrip_rstrip_lstrip s : lstrip (rstrip (lstrip s)) = rstrip (lstrip s).
Proof.
  induction s as [|x s IH]; [reflexivity|]. simpl.
  destruct (isspace x) eqn:Hx; [exact IH|].
  rewrite rstrip_cons by exact Hx. simpl. rewrite Hx. reflexivity.
Qed.

(** [s.strip().strip() == s.strip()] *)
Lemma strip_idempotent s : strip (strip s) = strip s.
Proof.
  unfold strip. rewrite lstrip_rstrip_lstrip. apply rstrip_idempotent.
Qed.

(** The loop appends trimmed, non-empty chunks only. *)
Lemma split_loop_trimmed fuel c text start chunks iters chunks' iters' :
  Forall (fun chunk => chunk <> [] /\ strip chunk = chunk) chunks ->
  split_loop fuel c text start chunks iters = Some (chunks', iters') ->
  Forall (fun chunk => chunk <> [] /\ strip chunk = chunk) chunks'.
Proof.
  revert start chunks iters.
  induction fuel as [|fuel IH]; intros start chunks iters Hall; simpl.
  - destruct (start <? len text); [discriminate|]. intros [= <- _]. exact Hall.
  - destruct (start <? len text); [|intros [= <- _]; exact Hall].
    set (chunk := strip (slice text start (window_end c text start))).
    assert (Hall' : Forall (fun chunk => chunk <> [] /\ strip chunk = chunk)
                      (if truthy chunk then chunks ++ [chunk] else chunks)).
    { destruct (truthy chunk) eqn:Ht; [|exact Hall].
      apply Forall_app. split; [exact Hall|].
      constructor; [|constructor]. split.
      - intros E. rewrite E in Ht. discriminate Ht.
      - apply strip_idempotent. }
    destruct (_ >=? _); [intros [= <- _]; exact Hall'|].
    apply IH, Hall'.
Qed.

(** X4. For a text longer than [chunk_size], every chunk that
    [split_text] returns is non-empty and equal to its own trimming. *)
Lemma split_text_long_trimmed fuel c text chunks :
  chunk_size c < len text ->
  split_text fuel c text = Some chunks ->
  Forall (fun chunk => chunk <> [] /\ strip chunk = chunk) chunks.
Proof.
  intros Hlong. unfold split_text, split_text_iters.
  destruct (Z.leb_spec (len text) (chunk_size c)); [lia|].
  destruct (split_loop fuel c text 0 [] 0) as [[chunks' iters']|] eqn:E;
    [|discriminate].
  simpl. intros [= <-]. eapply split_loop_trimmed; [|exact E]. constructor.
Qed.

(** First scenario of the specification. *)
Example split_text_scenario :
  split_text 3 {| chunk_size := 5; chunk_overlap := 2 |} (u "A. B. C.")
  = Some [u "A. B."; u "B. C."; u "C."].
Proof. reflexivity. Qed.

End Trimmed.

(** ** Blocks of [format_retrieved_context] *)

Section RetrievedContext.
Import Retriever.

(** The LangChain variant joins, with a rule, one block per document: a
    line ["[Source i+1: s, page p]"] without any score, followed by the
    trimmed content; a missing page reads ["N/A"]. *)
Lemma format_retrieved_context_blocks (documents : list Document) :
  documents <> [] ->
  exists parts,
    format_retrieved_context documents
    = join ([newline; newline] ++ u "---" ++ [newline; newline]) parts
    /\ length parts = length documents
    /\ forall i d, documents !! i = Some d ->
         parts !! i
         = Some (u "[Source " ++ str_of_int (Z.of_nat (S i)) ++ u ": "
                   ++ str_of_value
                        (default (VStr (u "unknown")) (metadata d !! "source_file"))
                   ++ u ", page "
                   ++ str_of_value (default (VStr (u "N/A")) (metadata d !! "page"))
                   ++ u "]" ++ [newline] ++ strip (page_content d)).
Proof.
  intros Hne. destruct documents as [|d0 documents]; [done|].
  unfold format_retrieved_context. rewrite lc_format_loop_imap, app_nil_l.
  eexists. split; [reflexivity|]. split; [apply length_imap|].
  intros i d Hd. rewrite list_lookup_imap, Hd. reflexivity.
Qed.

End RetrievedContext.


(** ** Coverage when the cursor moves forward *)

Section Coverage.
Import TextChunker.





End Coverage.

(** ** What [rfind] finds *)

Section Rfind.

Lemma rfind_scan_greatest ch s i0 lo hi found :
  (rfind_scan ch s i0 lo hi found = found
   /\ forall j : nat, s !! j = Some ch -> ~ lo <= i0 + Z.of_nat j < hi)
  \/ exists j : nat,
       rfind_scan ch s i0 lo hi found = i0 + Z.of_nat j
       /\ s !! j = Some ch /\ lo <= i0 + Z.of_nat j < hi
       /\ forall j' : nat,
            s !! j' = Some ch -> (j < j')%nat -> ~ lo <= i0 + Z.of_nat j' < hi.
Proof.
  revert i0 found. induction s as [|x s IH]; intros i0 found; simpl.
  - left. split; [reflexivity|]. intros j Hj. discriminate Hj.
  - destruct (IH (i0 + 1)
                (if (lo <=? i0) && (i0 <? hi) && (x =? ch)%N then i0 else found))
      as [[-> Hnone]|(j & -> & Hj & Hr & Hmax)].
    + destruct ((lo <=? i0) && (i0 <? hi) && (x =? ch)%N) eqn:Hc.
      * right. exists O.
        apply andb_prop in Hc as [[H1%Z.leb_le H2%Z.ltb_lt]%andb_prop ->%N.eqb_eq].
        split; [lia|]. split; [reflexivity|]. split; [lia|].
        intros [|j'] Hj' Hlt; [lia|]. simpl in Hj'.
        specialize (Hnone j' Hj'). lia.
      * left. split; [reflexivity|].
        intros [|j] Hj.
        -- injection Hj as ->. rewrite N.eqb_refl, andb_true_r in Hc.
           apply andb_false_iff in Hc as [H%Z.leb_gt|H%Z.ltb_ge]; lia.
        -- simpl in Hj. specialize (Hnone j Hj). lia.
    + right. exists (S j). split; [lia|]. split; [exact Hj|].
      split; [lia|].
      intros [|j'] Hj' Hlt; [lia|]. simpl in Hj'.
      specialize (Hmax j' Hj' ltac:(lia)). lia.
Qed.

(** For non-negative bounds, [rfind] gives the greatest position of the
    character at or after [start] and before [stop], or [-1] when there is
    none. *)
Lemma rfind_greatest s ch start stop :
  0 <= start -> 0 <= stop ->
  (rfind s ch start stop = -1
   /\ forall j : nat,
        s !! j = Some ch -> ~ (start <= Z.of_nat j < stop))
  \/ exists j : nat,
       rfind s ch start stop = Z.of_nat j
       /\ s !! j = Some ch /\ start <= Z.of_nat j < stop
       /\ forall j' : nat,
            s !! j' = Some ch -> (j < j')%nat -> ~ Z.of_nat j' < stop.
Proof.
  intros Hs Hstop0. unfold rfind.
  destruct (Z.ltb_spec start 0); [lia|].
  set (hi := if len s <? stop then len s
             else if stop <? 0 then Z.max 0 (stop + len s) else stop).
  assert (Hhi : forall j : nat, (j < length s)%nat ->
                  (start <= Z.of_nat j < hi <-> start <= Z.of_nat j < stop)).
  { intros j Hj. unfold hi, len.
    destruct (Z.ltb_spec (Z.of_nat (length s)) stop); [lia|].
    destruct (Z.ltb_spec stop 0); lia. }
  destruct (Z.ltb_spec (hi - start) 1) as [Hempty|Hnonempty].
  - left. split; [reflexivity|]. intros j Hj.
    pose proof (lookup_lt_Some _ _ _ Hj). rewrite <- Hhi by assumption. lia.
  - destruct (rfind_scan_greatest ch s 0 start hi (-1))
      as [[-> Hnone]|(j & -> & Hj & Hr & Hmax)].
    + left. split; [reflexivity|]. intros j Hj.
      pose proof (lookup_lt_Some _ _ _ Hj). rewrite <- Hhi by assumption.
      apply (Hnone j Hj).
    + right. exists j. pose proof (lookup_lt_Some _ _ _ Hj).
      split; [reflexivity|]. split; [exact Hj|].
      split; [apply Hhi; [assumption|lia]|].
      intros j' Hj' Hlt Hstop. pose proof (lookup_lt_Some _ _ _ Hj').
      apply (Hmax j' Hj' Hlt). simpl. apply Hhi; [assumption|lia].
Qed.

End Rfind.

(** ** No chunk is longer than [chunk_size] *)

Section ChunkLength.
Import TextChunker.









End ChunkLength.

(** ** A cursor that does not move *)

Section Stuck.
Import TextChunker.

Lemma split_loop_stuck c text start :
  start < len text ->
  window_end c text start - chunk_overlap c = start ->
  forall fuel chunks iters, split_loop fuel c text start chunks iters = None.
Proof.
  intros Hlt Hback fuel.
  induction fuel as [|fuel IH]; intros chunks iters; simpl;
    destruct (Z.ltb_spec start (len text)); try lia; [reflexivity|].
  rewrite Hback. destruct (Z.geb_spec start (len text)); [lia|]. apply IH.
Qed.

(** A cursor below [-1] sends the next one to [- chunk_overlap], where it
    stays. *)
Lemma window_end_negative c text start :
  0 <= chunk_size c < len text ->
  - chunk_size c <= start < -1 ->
  window_end c text start = 0.
Proof.
  intros Hlong Hs. unfold window_end.
  destruct (Z.ltb_spec (start + chunk_size c) (len text)); [|lia].
  assert (Hr : forall ch, rfind text ch start (start + chunk_size c) = -1).
  { intros ch. unfold rfind.
    destruct (Z.ltb_spec (len text) (start + chunk_size c)); [lia|].
    destruct (Z.ltb_spec (start + chunk_size c) 0); [lia|].
    destruct (Z.ltb_spec start 0); [|lia].
    destruct (Z.ltb_spec (start + chunk_size c - Z.max 0 (start + len text)) 1);
      [reflexivity|lia]. }
  rewrite !Hr. destruct (Z.gtb_spec (-1) start); [reflexivity|lia].
Qed.

Lemma split_loop_negative c text start :
  0 <= chunk_size c < len text ->
  2 <= chunk_overlap c <= chunk_size c ->
  - chunk_size c <= start < -1 ->
  forall fuel chunks iters, split_loop fuel c text start chunks iters = None.
Proof.
  intros Hlong Hov Hs fuel chunks iters.
  destruct fuel as [|fuel]; simpl;
    destruct (Z.ltb_spec start (len text)); try lia; [reflexivity|].
  rewrite window_end_negative by assumption.
  destruct (Z.geb_spec (0 - chunk_overlap c) (len text)); [lia|].
  apply split_loop_stuck; [lia|].
  rewrite window_end_negative by lia. reflexivity.
Qed.

Lemma window_end_origin c text :
  0 <= chunk_size c -> 0 <= window_end c text 0.
Proof.
  intros Hsz. unfold window_end.
  destruct (_ <? len text); [|lia].
  destruct (Z.gtb_spec (rfind text dot 0 (0 + chunk_size c)) 0);
    destruct (Z.gtb_spec (rfind text newline 0 (0 + chunk_size c)) 0);
    simpl; lia.
Qed.

(** X2. When the first window of a text longer than [chunk_size] ends
    no more than [chunk_overlap] characters after the start of the text,
    and not exactly [chunk_overlap - 1] characters after it, the cursor
    comes back to 0 or falls below [-1], and [split_text] never returns,
    whatever the fuel. *)
Theorem split_text_never_returns_when_stuck (c : t) (text : str) (fuel : nat) :
  0 <= chunk_size c < len text ->
  chunk_overlap c <= chunk_size c ->
  window_end c text 0 <= chunk_overlap c ->
  window_end c text 0 <> chunk_overlap c - 1 ->
  split_text fuel c text = None.
Proof.
  intros Hlong Hov Hw Hw1. unfold split_text, split_text_iters.
  destruct (Z.leb_spec (len text) (chunk_size c)); [lia|].
  pose proof (window_end_origin c text ltac:(lia)) as Hw0.
  destruct (Z.eq_dec (window_end c text 0) (chunk_overlap c)) as [E|NE].
  - rewrite (split_loop_stuck c text 0); [reflexivity|lia|lia].
  - destruct fuel as [|fuel]; simpl;
      destruct (Z.ltb_spec 0 (len text)); try lia; [reflexivity|].
    destruct (Z.geb_spec (window_end c text 0 - chunk_overlap c) (len text)); [lia|].
    rewrite split_loop_negative; [reflexivity|lia|lia|lia].
Qed.

(** X2 at the default configuration: a heading ["1."] followed by a long
    line without any other ['.'] or newline. *)
Lemma split_text_never_returns_when_stuck_witness :
  split_text 100 {| chunk_size := 1000; chunk_overlap := 200 |}
    (u "1." ++ replicate 1500 97%N)
  = None.
Proof.
  apply split_text_never_returns_when_stuck.
  - vm_compute. split; [discriminate|reflexivity].
  - vm_compute. discriminate.
  - vm_compute. discriminate.
  - vm_compute. discriminate.
Defined.

(** X3. With [chunk_overlap = chunk_size], a configuration that
    [__init__] accepts, [split_text] never returns on a text that is longer
    than [chunk_size] and holds no ['.'] and no newline. *)
Theorem split_text_never_returns_full_overlap (c : t) (text : str) (fuel : nat) :
  chunk_overlap c = chunk_size c ->
  0 <= chunk_size c < len text ->
  no_boundary text = true ->
  split_text fuel c text = None.
Proof.
  intros Hov Hlong Hnb. unfold split_text, split_text_iters.
  destruct (Z.leb_spec (len text) (chunk_size c)); [lia|].
  rewrite (split_loop_stuck c text 0); [reflexivity|lia|].
  rewrite window_end_no_boundary by (assumption || lia). lia.
Qed.

(** X3 at [chunk_size = chunk_overlap = 3] and the text ["abcdefgh"]. *)
Lemma split_text_never_returns_full_overlap_witness :
  split_text 100 {| chunk_size := 3; chunk_overlap := 3 |} (u "abcdefgh") = None.
Proof.
  apply split_text_never_returns_full_overlap.
  - reflexivity.
  - vm_compute. split; [discriminate|reflexivity].
  - reflexivity.
Defined.

End Stuck.

(** ** Chunks of documents that are not blank *)

Section NonBlank.
Import TextChunker.

Lemma split_text_non_blank fuel c text chunks :
  strip text <> [] ->
  split_text fuel c text = Some chunks ->
  Forall (fun chunk => strip chunk <> []) chunks.
Proof.
  intros Htext. unfold split_text, split_text_iters.
  destruct (len text <=? chunk_size c); simpl.
  - intros [= <-]. constructor; [exact Htext|constructor].
  - destruct (split_loop fuel c text 0 [] 0) as [[chunks' iters]|] eqn:E;
      [|discriminate].
    simpl. intros [= <-].
    eapply Forall_impl.
    + eapply split_loop_trimmed; [|exact E]. constructor.
    + intros chunk [Hne Hs]. simpl. rewrite Hs. exact Hne.
Qed.

(** X4 at the first scenario of the specification. *)
Lemma split_text_long_trimmed_witness :
  Forall (fun chunk => chunk <> [] /\ strip chunk = chunk)
    [u "A. B."; u "B. C."; u "C."].
Proof.
  apply (split_text_long_trimmed 3 {| chunk_size := 5; chunk_overlap := 2 |}
           (u "A. B. C.")).
  - vm_compute. reflexivity.
  - reflexivity.
Defined.


(** X6. When no input document is blank (each text has a character that
    is not whitespace), no chunk that [chunk_documents] returns is blank. *)
Theorem chunk_documents_non_blank (fuel : nat) (c : t)
    (documents chunked_docs : list Document) :
  Forall (fun d => strip (page_content d) <> []) documents ->
  chunk_documents fuel c documents = Some chunked_docs ->
  Forall (fun d => strip (page_content d) <> []) chunked_docs.
Proof.
  intros Hdocs [groups [-> Hgroups]]%chunk_loop_groups. simpl.
  apply Forall_concat.
  induction Hgroups as [|d group documents groups Hg _ IH]; [constructor|].
  apply Forall_cons in Hdocs as [Hd Hdocs].
  constructor; [|apply IH, Hdocs].
  destruct Hg as (chunks & Hs & Hlen & Hg).
  pose proof (split_text_non_blank _ _ _ _ Hd Hs) as Hall.
  apply Forall_lookup. intros i chunk Hi.
  destruct (Hg i chunk Hi) as (Hc & _).
  rewrite Forall_lookup in Hall. apply (Hall i _ Hc).
Qed.

(** X6 at a short and a long document. *)
Lemma chunk_documents_non_blank_witness :
  Forall (fun d => strip (page_content d) <> [])
    (chunked_doc ∅ 0 (u " hi ") 1
       :: imap (fun i chunk => chunked_doc ∅ i chunk 3)
            [u "A. B."; u "B. C."; u "C."]).
Proof.
  apply (chunk_documents_non_blank 3 {| chunk_size := 5; chunk_overlap := 2 |}
           [ {| page_content := u " hi "; metadata := ∅ |};
             {| page_content := u "A. B. C."; metadata := ∅ |} ]).
  - repeat constructor; vm_compute; discriminate.
  - vm_compute. reflexivity.
Defined.

End NonBlank.

(** ** Batches of a list *)

Section BatchLemmas.
Import PyList Batches.
Context {A : Type}.
Implicit Types l : list A.

Lemma lslice_nonneg l a b :
  0 <= a -> a <= b ->
  lslice l a b = take (Z.to_nat (b - a)) (drop (Z.to_nat a) l).
Proof.
  intros Ha Hb. unfold lslice, adjust_index, llen.
  destruct (Z.ltb_spec a 0); [lia|]. destruct (Z.ltb_spec b 0); [lia|].
  destruct (Z.le_gt_cases (Z.of_nat (length l)) a).
  - rewrite !drop_ge by lia. rewrite !take_nil. reflexivity.
  - rewrite (Z.min_l a) by lia.
    destruct (Z.le_gt_cases b (Z.of_nat (length l))).
    + rewrite Z.min_l by lia. reflexivity.
    + rewrite Z.min_r by lia.
      rewrite !take_ge; [reflexivity| |]; rewrite length_drop; lia.
Qed.

Lemma range_seq (n step : Z) :
  0 < step ->
  range 0 n step
  = (fun k : nat => Z.of_nat k * step) <$> seq 0 (Z.to_nat ((n + step - 1) / step)).
Proof.
  intros Hs. unfold range, seqZ. rewrite <- list_fmap_compose.
  replace (n - 0 + step - 1) with (n + step - 1) by lia.
  apply list_fmap_ext. intros _ k _. simpl. lia.
Qed.

Lemma concat_windows l (s k0 cnt : nat) :
  concat ((fun k : nat => take s (drop (k * s) l)) <$> seq k0 cnt)
  = take (cnt * s) (drop (k0 * s) l).
Proof.
  revert k0. induction cnt as [|cnt IH]; intros k0; simpl; [reflexivity|].
  rewrite IH. rewrite <- (take_take_drop (drop (k0 * s) l) s (cnt * s)).
  rewrite drop_drop. do 3 f_equal. lia.
Qed.

Lemma batches_windows l size :
  0 < size ->
  batches size l
  = (fun k : nat => take (Z.to_nat size) (drop (k * Z.to_nat size) l))
      <$> seq 0 (Z.to_nat ((llen l + size - 1) / size)).
Proof.
  intros Hs. unfold batches. rewrite range_seq by assumption.
  rewrite <- list_fmap_compose. apply list_fmap_ext. intros _ k _. simpl.
  rewrite lslice_nonneg by nia. f_equal; [lia|]. f_equal. nia.
Qed.

(** The batches, one after the other, are the list. *)
Lemma concat_batches l size : 0 < size -> concat (batches size l) = l.
Proof.
  intros Hs. rewrite batches_windows by assumption.
  rewrite concat_windows. simpl. rewrite drop_0. apply take_ge.
  unfold llen.
  pose proof (Z.div_mod (Z.of_nat (length l) + size - 1) size ltac:(lia)).
  pose proof (Z.mod_pos_bound (Z.of_nat (length l) + size - 1) size ltac:(lia)).
  assert (0 <= (Z.of_nat (length l) + size - 1) / size) by (apply Z.div_pos; lia).
  nia.
Qed.

Lemma length_batches l size :
  0 < size -> llen (batches size l) = (llen l + size - 1) / size.
Proof.
  intros Hs. rewrite batches_windows by assumption. unfold llen.
  rewrite length_fmap, length_seq.
  assert (0 <= (Z.of_nat (length l) + size - 1) / size) by (apply Z.div_pos; lia).
  lia.
Qed.

(** No batch is empty and none holds more than [size] elements. *)
Lemma batches_sizes l size :
  0 < size -> Forall (fun batch => 1 <= llen batch <= size) (batches size l).
Proof.
  intros Hs. rewrite batches_windows by assumption.
  apply Forall_fmap, Forall_forall. intros k Hk%elem_of_seq. simpl.
  unfold llen in *. rewrite length_take, length_drop.
  pose proof (Z.div_mod (Z.of_nat (length l) + size - 1) size ltac:(lia)).
  pose proof (Z.mod_pos_bound (Z.of_nat (length l) + size - 1) size ltac:(lia)).
  assert (0 <= (Z.of_nat (length l) + size - 1) / size) by (apply Z.div_pos; lia).
  nia.
Qed.

End BatchLemmas.

(** ** [embed_documents] *)

Section EmbedDocuments.
Import PyList Batches AzureOpenAIEmbedder EmbedderBatches.
Variable create : nat -> list str -> result (list (list float)).

Lemma doc_zip_with (batch : list Document) (data : list (list float)) :
  doc <$> zip_with (fun d e => {| doc := d; embedding := e |}) batch data
  = take (length data) batch.
Proof.
  revert data. induction batch as [|d batch IH]; intros [|e data]; simpl;
    try reflexivity.
  f_equal. apply IH.
Qed.

Lemma embed_loop_calls call documents indices embedded_docs calls :
  (embed_loop create call documents indices embedded_docs calls).2
  = calls ++ ((fun i => page_content <$> lslice documents i (i + batch_size))
                <$> indices).
Proof.
  revert call embedded_docs calls.
  induction indices as [|i indices IH]; intros call embedded_docs calls; simpl.
  - symmetry. apply app_nil_r.
  - destruct (create call _); rewrite IH, <- app_assoc; reflexivity.
Qed.

Lemma embed_loop_sublist call documents indices embedded_docs calls :
  doc <$> (embed_loop create call documents indices embedded_docs calls).1
  `sublist_of`
  (doc <$> embedded_docs)
    ++ concat ((fun i => lslice documents i (i + batch_size)) <$> indices).
Proof.
  revert call embedded_docs calls.
  induction indices as [|i indices IH]; intros call embedded_docs calls; simpl.
  - rewrite app_nil_r. reflexivity.
  - destruct (create call _) as [data|exception].
    + etransitivity; [apply IH|].
      rewrite fmap_app, doc_zip_with, <- app_assoc.
      apply sublist_app; [reflexivity|].
      apply sublist_app; [apply sublist_take|reflexivity].
    + etransitivity; [apply IH|].
      apply sublist_app; [reflexivity|]. apply sublist_inserts_l. reflexivity.
Qed.

Lemma embed_loop_answered call documents indices embedded_docs calls :
  (forall call texts data,
     create call texts = Ok data -> length data = length texts) ->
  doc <$> (embed_loop create call documents indices embedded_docs calls).1
  = (doc <$> embedded_docs)
      ++ concat (imap (fun j batch => answered create (call + j) batch)
                   ((fun i => lslice documents i (i + batch_size)) <$> indices)).
Proof.
  intros Hdata. revert call embedded_docs calls.
  induction indices as [|i indices IH]; intros call embedded_docs calls; simpl.
  - symmetry. apply app_nil_r.
  - unfold answered at 1. rewrite Nat.add_0_r.
    destruct (create call _) as [data|exception] eqn:E.
    + rewrite IH, fmap_app, doc_zip_with, <- app_assoc.
      rewrite (Hdata _ _ _ E), length_fmap, firstn_all.
      do 3 f_equal. apply imap_ext. intros j batch _. simpl. f_equal. lia.
    + rewrite IH. simpl. do 2 f_equal.
      apply imap_ext. intros j batch _. simpl. f_equal. lia.
Qed.

(** X7. Whatever the service answers, the documents that
    [embed_documents] returns are, without their embeddings, a subsequence
    of the input: none is invented, repeated or moved. *)
Theorem embed_documents_sublist (documents : list Document) :
  doc <$> embed_documents create documents `sublist_of` documents.
Proof.
  unfold embed_documents, embed_documents_calls.
  etransitivity; [apply embed_loop_sublist|]. simpl.
  change (concat _) with (concat (batches batch_size documents)).
  rewrite concat_batches by reflexivity. reflexivity.
Qed.

(** X8. Whether calls fail or not, [embed_documents] sends every text
    exactly once and in order, in [total_batches] calls of 1 to 16 texts
    each. *)
Theorem embed_documents_sends_batches (documents : list Document) :
  (embed_documents_calls create documents).2
  = (fun batch : list Document => page_content <$> batch)
      <$> batches batch_size documents
  /\ concat (embed_documents_calls create documents).2
     = page_content <$> documents
  /\ Forall (fun texts => 1 <= llen texts <= 16)
       (embed_documents_calls create documents).2
  /\ llen (embed_documents_calls create documents).2 = total_batches documents.
Proof.
  assert (E : (embed_documents_calls create documents).2
              = (fun batch : list Document => page_content <$> batch)
      <$> batches batch_size documents).
  { unfold embed_documents_calls. rewrite embed_loop_calls. simpl.
    unfold batches. rewrite <- list_fmap_compose. reflexivity. }
  rewrite E. split; [reflexivity|]. split; [|split].
  - rewrite <- (concat_batches documents batch_size) at 2 by reflexivity.
    generalize (batches batch_size documents) as bs.
    induction bs as [|b bs IH]; [reflexivity|].
    rewrite fmap_cons. change (concat (?x :: ?l)) with (x ++ concat l).
    rewrite fmap_app, IH. reflexivity.
  - apply Forall_fmap.
    eapply Forall_impl; [apply (batches_sizes documents batch_size); reflexivity|].
    intros batch Hb. simpl. unfold llen in *. rewrite length_fmap. exact Hb.
  - unfold llen at 1. rewrite length_fmap.
    apply (length_batches documents batch_size). reflexivity.
Qed.

(** X9. When every answer of the service holds one embedding per text,
    [embed_documents] returns, in order, the documents of the batches
    whose call was answered, and silently leaves out those of the batches
    whose call raised. *)
Theorem embed_documents_drops_failed_batches (documents : list Document) :
  (forall call texts data,
     create call texts = Ok data -> length data = length texts) ->
  doc <$> embed_documents create documents
  = concat (imap (answered create) (batches batch_size documents)).
Proof.
  intros Hdata. unfold embed_documents, embed_documents_calls.
  rewrite embed_loop_answered by exact Hdata. reflexivity.
Qed.

Lemma imap_answered_all (call : nat) (bs : list (list Document)) :
  (forall call texts,
     exists data, create call texts = Ok data /\ length data = length texts) ->
  imap (fun j batch => answered create (call + j) batch) bs = bs.
Proof.
  intros Hok. revert call.
  induction bs as [|b bs IH]; intros call; [reflexivity|].
  rewrite imap_cons. f_equal.
  - unfold answered.
    destruct (Hok (call + 0)%nat (page_content <$> b)) as (data & -> & _).
    reflexivity.
  - rewrite <- (IH (S call)) at 2. apply imap_ext. intros j x _. simpl.
    f_equal. lia.
Qed.

(** X10. When the service answers every call with one embedding per
    text, [embed_documents] returns every input document, in order, each
    with an embedding. *)
Theorem embed_documents_complete (documents : list Document) :
  (forall call texts,
     exists data, create call texts = Ok data /\ length data = length texts) ->
  doc <$> embed_documents create documents = documents.
Proof.
  intros Hok. unfold embed_documents, embed_documents_calls.
  rewrite embed_loop_answered.
  - rewrite imap_answered_all by exact Hok.
    apply (concat_batches documents batch_size). reflexivity.
  - intros call texts data E. destruct (Hok call texts) as (data' & E' & Hl).
    congruence.
Qed.


End EmbedDocuments.

Section EmbedDocumentsWitnesses.
Import PyList Batches AzureOpenAIEmbedder EmbedderBatches.

(** X9 at twenty documents and a service that fails on its second call:
    the first sixteen documents come back. *)
Lemma embed_documents_drops_failed_batches_witness :
  doc <$> embed_documents
            (fun call texts =>
               if Nat.eqb call 1 then Raise "timeout"
               else Ok ((fun _ => []) <$> texts))
            (replicate 20 {| page_content := u "x"; metadata := ∅ |})
  = replicate 16 {| page_content := u "x"; metadata := ∅ |}.
Proof.
  rewrite embed_documents_drops_failed_batches.
  - vm_compute. reflexivity.
  - intros call texts data. destruct (Nat.eqb call 1); [discriminate|].
    intros [= <-]. apply length_fmap.
Defined.

(** X10 at twenty documents and a service that always answers. *)
Lemma embed_documents_complete_witness :
  doc <$> embed_documents (fun _ texts => Ok ((fun _ => []) <$> texts))
            (replicate 20 {| page_content := u "x"; metadata := ∅ |})
  = replicate 20 {| page_content := u "x"; metadata := ∅ |}.
Proof.
  apply embed_documents_complete.
  intros call texts. eexists. split; [reflexivity|]. apply length_fmap.
Defined.


End EmbedDocumentsWitnesses.

(** ** [HybridRetriever.retrieve] *)

Section Retrieve.
Import HybridRetriever HybridRetrieverRetrieve.

Lemma doc_of_result_retrieved_from content r :
  result_content r = Some content ->
  retrieved_from r (doc_of_result content r).
Proof.
  intros Hc. unfold retrieved_from, doc_of_result. simpl.
  split; [exact Hc|].
  split; [apply lookup_insert_eq|].
  split; [rewrite lookup_insert_ne by done; apply lookup_insert_eq|].
  split; [|reflexivity].
  rewrite !lookup_insert_ne by done. apply lookup_singleton_eq.
Qed.

Lemma retrieve_loop_ok results documents out :
  retrieve_loop results documents = Ok out ->
  exists documents',
    out = documents ++ documents'
    /\ Forall2 retrieved_from results documents'.
Proof.
  revert documents. induction results as [|r results IH]; intros documents; simpl.
  - intros [= <-]. exists []. split; [symmetry; apply app_nil_r|constructor].
  - destruct (result_content r) as [content|] eqn:Hc; [|discriminate].
    intros (documents' & -> & Hall)%IH.
    exists (doc_of_result content r :: documents'). split.
    + rewrite <- app_assoc. reflexivity.
    + constructor; [apply doc_of_result_retrieved_from, Hc|exact Hall].
Qed.

Lemma retrieve_loop_returns results documents :
  (exists out, retrieve_loop results documents = Ok out)
  <-> Forall (fun r => is_Some (result_content r)) results.
Proof.
  revert documents. induction results as [|r results IH]; intros documents; simpl.
  - split; [constructor|]. intros _. eexists. reflexivity.
  - destruct (result_content r) as [content|] eqn:Hc.
    + rewrite IH. split.
      * intros H. constructor; [rewrite Hc; eexists; reflexivity|exact H].
      * intros H. apply Forall_cons in H as [_ H]. exact H.
    + split.
      * intros [out H]. discriminate H.
      * intros H. apply Forall_cons in H as [[x Hx] _]. congruence.
Qed.

Variable embed_query : str -> result (list float).
Variable search : str -> list float -> Z -> result (list search_result).
Variable self_top_k : Z.

(** X12. [retrieve] returns exactly when the embedding call and the
    search call answer and every search result has a ["content"] entry.
    It then returns one document per search result, in the order of the
    results, each with the content of its result, a score, and the three
    metadata entries ["source_file"], ["page"] and ["chunk"], which are
    [""], [0] and [0] where the result has none. *)
Theorem retrieve_documents (query : str) (top_k : option Z) :
  ((exists documents,
      retrieve embed_query search self_top_k query top_k = Ok documents)
   <-> exists query_embedding results,
         embed_query query = Ok query_embedding
         /\ search query query_embedding (top_k_or_default self_top_k top_k)
            = Ok results
         /\ Forall (fun r => is_Some (result_content r)) results)
  /\ forall documents,
       retrieve embed_query search self_top_k query top_k = Ok documents ->
       exists query_embedding results,
         embed_query query = Ok query_embedding
         /\ search query query_embedding (top_k_or_default self_top_k top_k)
            = Ok results
         /\ Forall2 retrieved_from results documents.
Proof.
  unfold retrieve.
  destruct (embed_query query) as [query_embedding|e] eqn:He.
  - destruct (search query query_embedding _) as [results|e] eqn:Hs.
    + split.
      * rewrite retrieve_loop_returns. split.
        -- intros H. eexists _, _. split; [reflexivity|]. split; [exact Hs|exact H].
        -- intros (? & ? & [= <-] & Hs' & H). rewrite Hs in Hs'.
           injection Hs' as <-. exact H.
      * intros documents (documents' & -> & H)%retrieve_loop_ok.
        eexists _, _. split; [reflexivity|]. split; [exact Hs|exact H].
    + split.
      * split; [intros [? H]; discriminate H|].
        intros (? & ? & [= <-] & H & _). rewrite Hs in H. discriminate H.
      * intros documents H. discriminate H.
  - split.
    + split; [intros [? H]; discriminate H|].
      intros (? & ? & H & _). discriminate H.
    + intros documents H. discriminate H.
Qed.

(** X13. The context that [format_context] builds from what [retrieve]
    returns never falls back on ["unknown"] or ["?"]: the block of the
    search result at position [i] prints the source file, the page and the
    score of that result, or [""], [0] and [0.000] where the result has
    none, followed by its content. *)
Theorem format_context_of_retrieve (query : str) (top_k : option Z)
    (documents : list doc) (query_embedding : list float)
    (results : list search_result) (i : nat) (r : search_result) :
  retrieve embed_query search self_top_k query top_k = Ok documents ->
  embed_query query = Ok query_embedding ->
  search query query_embedding (top_k_or_default self_top_k top_k)
  = Ok results ->
  results !! i = Some r ->
  exists parts content,
    format_context documents = join [newline] parts
    /\ length parts = length results
    /\ result_content r = Some content
    /\ parts !! i
       = Some (header (S i)
                 (default (VStr (u "")) (result_fields r !! "source_file"))
                 (default (VInt 0) (result_fields r !! "page"))
                 (default 0%float (result_score r))
               ++ content ++ [newline]).
Proof.
  unfold retrieve. intros H He Hs Hr. rewrite He, Hs in H.
  apply retrieve_loop_ok in H as (documents' & -> & Hall). simpl.
  destruct (Forall2_lookup_l _ _ _ _ _ Hall Hr) as (d & Hd & Hrd).
  destruct Hrd as (Hc & Hsrc & Hpage & _ & Hscore).
  assert (Hne : documents' <> []) by (intros ->; discriminate Hd).
  eexists _, (content d). split; [apply format_context_parts, Hne|].
  split; [rewrite length_imap; symmetry; eapply Forall2_length, Hall|].
  split; [exact Hc|].
  rewrite list_lookup_imap, Hd. simpl. unfold context_part.
  rewrite Hsrc, Hpage, Hscore. reflexivity.
Qed.

End Retrieve.

Section RetrieveWitness.
Import HybridRetriever HybridRetrieverRetrieve.

(** X13 at one search result that has a content and nothing else. *)
Lemma format_context_of_retrieve_witness :
  format_context
    [ doc_of_result (u "X")
        {| result_content := Some (u "X"); result_score := None;
           result_fields := ∅ |} ]
  = u "[Document 1] (Source: , Page: 0, Score: 0.000)" ++ [newline]
      ++ u "X" ++ [newline].
Proof.
  destruct (format_context_of_retrieve
              (fun _ => Ok [])
              (fun _ _ _ => Ok [ {| result_content := Some (u "X");
                                    result_score := None; result_fields := ∅ |} ])
              4 (u "q") None
              [ doc_of_result (u "X")
                  {| result_content := Some (u "X"); result_score := None;
                     result_fields := ∅ |} ]
              [] _ 0%nat _ eq_refl eq_refl eq_refl eq_refl)
    as (parts & content & -> & Hl & Hc & Hp).
  destruct parts as [|part [|? ?]]; [discriminate Hl| |discriminate Hl].
  injection Hc as <-. injection Hp as ->. vm_compute. reflexivity.
Defined.

End RetrieveWitness.

(** ** [RAGChain.query] of the Azure pipeline *)

Section AzQuery.
Import HybridRetriever AzRAGChain.
Variable chat : str -> str -> result (str * usage).
Variable retrieve : str -> result (list doc).

(** X14. [query] raises exactly when the retrieval raises, with the same
    exception. A failure of the chat service is no failure of [query]: when
    documents were retrieved and the chat call raises with message [e], the
    answer is ["Error generating answer: "] followed by [e], the sources
    are listed as usual and the usage is empty. *)
Theorem query_fails_with_retrieval_only (question : str) :
  (forall e, query chat retrieve question = Raise e
             <-> retrieve question = Raise e)
  /\ forall d documents e,
       retrieve question = Ok (d :: documents) ->
       chat (u "You are a helpful AI assistant specialized in answering questions based on provided documents.")
         (create_prompt question (format_context (d :: documents)))
       = Raise e ->
       query chat retrieve question
       = Ok {| question := question;
               answer := u "Error generating answer: " ++ u e;
               sources := source_of <$> d :: documents;
               response_usage := None |}.
Proof.
  split.
  - intros e. unfold query.
    destruct (retrieve question) as [[|d documents]|e']; split;
      (discriminate || (intros [= ->]; reflexivity)).
  - intros d documents e Hr Hc. unfold query, generate_answer.
    rewrite Hr, Hc. reflexivity.
Qed.

(** X15. When [query] returns, its sources are one entry per retrieved
    document, in retrieval order; each preview is the first 150 characters
    of the content followed by ["..."], so it has [min(len(content), 150)
    + 3] characters, also when the content is shorter than 150. When no
    document was retrieved the answer is the fixed sentence and the chat
    service plays no part. *)
Theorem query_sources (question : str) (r : response) :
  query chat retrieve question = Ok r ->
  exists documents,
    retrieve question = Ok documents
    /\ AzRAGChain.question r = question
    /\ length (sources r) = length documents
    /\ (forall i d, documents !! i = Some d ->
          exists s,
            sources r !! i = Some s
            /\ preview s = take 150 (content d) ++ u "..."
            /\ len (preview s) = Z.min (len (content d)) 150 + 3
            /\ file s = default VNone (metadata d !! "source_file")
            /\ page s = default VNone (metadata d !! "page")
            /\ source_score s = score d)
    /\ (documents = [] ->
        answer r = u "I don't have any relevant documents to answer this question."
        /\ response_usage r = None).
Proof.
  unfold query. destruct (retrieve question) as [documents|e]; [|discriminate].
  intros H. exists documents. split; [reflexivity|].
  assert (Hs : sources r = source_of <$> documents
               /\ AzRAGChain.question r = question
               /\ (documents = [] ->
                   answer r = u "I don't have any relevant documents to answer this question."
                   /\ response_usage r = None)).
  { destruct documents; injection H as <-; simpl;
      (split; [reflexivity|split; [reflexivity|]]); [split; reflexivity|discriminate]. }
  destruct Hs as (Hs & Hq & He). split; [exact Hq|].
  split; [rewrite Hs; apply length_fmap|]. split; [|exact He].
  intros i d Hd. exists (source_of d).
  split; [rewrite Hs, list_lookup_fmap, Hd; reflexivity|].
  assert (Hp : preview (source_of d) = take 150 (content d) ++ u "...").
  { unfold source_of. simpl. f_equal. unfold slice, adjust_index.
    change (0 <? 0) with false. change (150 <? 0) with false. cbv iota.
    assert (Hlen : 0 <= len (content d)) by (unfold len; lia).
    rewrite (Z.min_l 0) by lia. rewrite Z.sub_0_r, drop_0.
    destruct (Z.le_gt_cases (len (content d)) 150).
    - rewrite Z.min_r by lia. unfold len in *.
      rewrite !take_ge by lia. reflexivity.
    - rewrite Z.min_l by lia. reflexivity. }
  split; [exact Hp|]. split; [|repeat split].
  rewrite Hp. unfold len. rewrite length_app, length_take.
  change (length (u "...")) with 3%nat. lia.
Qed.

End AzQuery.

Section AzQueryWitness.
Import HybridRetriever AzRAGChain.

(** X15 at one retrieved document of three characters and a chat service
    that is down. *)
Lemma query_sources_witness :
  exists s,
    [ source_of {| content := u "abc"; metadata := ∅; score := None |} ] !! 0%nat
    = Some s
    /\ len (preview s) = 6.
Proof.
  destruct (query_sources (fun _ _ => Raise "down")
              (fun _ => Ok [ {| content := u "abc"; metadata := ∅; score := None |} ])
              (u "q") _ eq_refl)
    as (documents & Hr & _ & _ & Hall & _).
  injection Hr as <-.
  destruct (Hall 0%nat _ eq_refl) as (s & Hs & _ & Hlen & _).
  exists s. split; [exact Hs|]. rewrite Hlen. reflexivity.
Defined.

End AzQueryWitness.

(** ** Chunks are pieces of their text *)

Section PiecesOfText.
Import TextChunker Pieces.

Lemma piece_of_refl s : piece_of s s.
Proof. exists [], []. rewrite app_nil_r. reflexivity. Qed.

Lemma piece_of_trans a b c : piece_of a b -> piece_of b c -> piece_of a c.
Proof.
  intros (a1 & a2 & ->) (b1 & b2 & ->).
  exists (b1 ++ a1), (a2 ++ b2). rewrite <- !app_assoc. reflexivity.
Qed.

Lemma lstrip_piece s : piece_of (lstrip s) s.
Proof.
  induction s as [|x s IH]; simpl; [apply piece_of_refl|].
  destruct (isspace x); [|apply piece_of_refl].
  destruct IH as (before & after & E).
  exists (x :: before), after. simpl. f_equal. exact E.
Qed.

Lemma reverse_piece a b : piece_of a b -> piece_of (reverse a) (reverse b).
Proof.
  intros (before & after & ->).
  exists (reverse after), (reverse before).
  rewrite !reverse_app, <- app_assoc. reflexivity.
Qed.

Lemma rstrip_piece s : piece_of (rstrip s) s.
Proof.
  unfold rstrip. rewrite <- (reverse_involutive s) at 2.
  apply reverse_piece, lstrip_piece.
Qed.

Lemma strip_piece s : piece_of (strip s) s.
Proof.
  unfold strip. eapply piece_of_trans; [apply rstrip_piece|apply lstrip_piece].
Qed.

Lemma slice_piece s start stop : piece_of (slice s start stop) s.
Proof.
  unfold slice.
  set (lo := Z.to_nat (adjust_index start (len s))).
  set (k := Z.to_nat (adjust_index stop (len s) - adjust_index start (len s))).
  exists (take lo s), (drop k (drop lo s)).
  rewrite (take_drop k), (take_drop lo). reflexivity.
Qed.

Lemma split_loop_pieces fuel c text start chunks iters chunks' iters' :
  Forall (fun chunk => piece_of chunk text) chunks ->
  split_loop fuel c text start chunks iters = Some (chunks', iters') ->
  Forall (fun chunk => piece_of chunk text) chunks'.
Proof.
  revert start chunks iters.
  induction fuel as [|fuel IH]; intros start chunks iters Hall; simpl.
  - destruct (start <? len text); [discriminate|]. intros [= <- _]. exact Hall.
  - destruct (start <? len text); [|intros [= <- _]; exact Hall].
    set (chunk := strip (slice text start (window_end c text start))).
    assert (Hall' : Forall (fun chunk => piece_of chunk text)
                      (if truthy chunk then chunks ++ [chunk] else chunks)).
    { destruct (truthy chunk); [|exact Hall].
      apply Forall_app. split; [exact Hall|]. constructor; [|constructor].
      eapply piece_of_trans; [apply strip_piece|apply slice_piece]. }
    destruct (_ >=? _); [intros [= <- _]; exact Hall'|].
    apply IH, Hall'.
Qed.

Lemma split_text_pieces fuel c text chunks :
  split_text fuel c text = Some chunks ->
  Forall (fun chunk => piece_of chunk text) chunks.
Proof.
  unfold split_text, split_text_iters.
  destruct (len text <=? chunk_size c); simpl.
  - intros [= <-]. constructor; [apply piece_of_refl|constructor].
  - destruct (split_loop fuel c text 0 [] 0) as [[chunks' iters]|] eqn:E;
      [|discriminate].
    simpl. intros [= <-]. eapply split_loop_pieces; [|exact E]. constructor.
Qed.

(** What holds of every chunk of every document holds of every document
    that [chunk_documents] returns. *)
Lemma chunk_documents_each (P : Document -> Document -> Prop) fuel c
    documents chunked_docs :
  (forall parent chunks chunk_idx d,
     parent ∈ documents ->
     split_text fuel c (page_content parent) = Some chunks ->
     chunk_of parent chunks chunk_idx d ->
     P parent d) ->
  chunk_documents fuel c documents = Some chunked_docs ->
  Forall (fun d => exists parent, parent ∈ documents /\ P parent d) chunked_docs.
Proof.
  intros HP [groups [-> Hgroups]]%chunk_loop_groups. simpl.
  apply Forall_concat.
  induction Hgroups as [|parent group documents groups Hg _ IH]; [constructor|].
  constructor.
  - destruct Hg as (chunks & Hs & _ & Hg).
    apply Forall_lookup. intros i d Hi.
    exists parent. split; [left|].
    apply (HP parent chunks i d); [left|exact Hs|apply Hg, Hi].
  - eapply Forall_impl.
    + apply IH. intros parent' chunks i d Hin. apply HP. right. exact Hin.
    + simpl. intros group' Hall. eapply Forall_impl; [exact Hall|]. simpl.
      intros d (parent' & Hin & Hd).
      exists parent'. split; [right; exact Hin|exact Hd].
Qed.

(** X16. [chunk_documents] invents no text: every document it returns
    holds a run of consecutive characters of the text of one input
    document, and carries every metadata entry of that document other than
    ["chunk"] and ["total_chunks"] unchanged. *)
Theorem chunk_documents_pieces (fuel : nat) (c : t)
    (documents chunked_docs : list Document) :
  chunk_documents fuel c documents = Some chunked_docs ->
  Forall (fun d =>
            exists parent,
              parent ∈ documents
              /\ piece_of (page_content d) (page_content parent)
              /\ forall key : string,
                   key <> "chunk" -> key <> "total_chunks" ->
                   metadata d !! key = metadata parent !! key)
    chunked_docs.
Proof.
  apply chunk_documents_each.
  intros parent chunks i d _ Hs (Hc & _ & _ & _ & Hm).
  split; [|exact Hm].
  apply split_text_pieces in Hs. rewrite Forall_lookup in Hs.
  apply (Hs i _ Hc).
Qed.

(** X16 at a document of three chunks. *)
Lemma chunk_documents_pieces_witness :
  Forall (fun d =>
            exists parent,
              parent ∈ [ {| page_content := u "A. B. C."; metadata := ∅ |} ]
              /\ piece_of (page_content d) (page_content parent)
              /\ forall key : string,
                   key <> "chunk" -> key <> "total_chunks" ->
                   metadata d !! key = metadata parent !! key)
    (imap (fun i chunk => chunked_doc ∅ i chunk 3)
       [u "A. B."; u "B. C."; u "C."]).
Proof.
  apply (chunk_documents_pieces 3 {| chunk_size := 5; chunk_overlap := 2 |}).
  vm_compute. reflexivity.
Defined.

End PiecesOfText.

(** ** Counting dictionaries *)

Section Dicts.
Import Py PyList PyDict.

Lemma foldl_add a xs : foldl Z.add a xs = a + foldl Z.add 0 xs.
Proof.
  revert a. induction xs as [|x xs IH]; intros a; simpl; [lia|].
  rewrite (IH (a + x)), (IH (0 + x)). lia.
Qed.

Lemma sum_cons x xs : sum (x :: xs) = x + sum xs.
Proof. unfold sum. simpl. rewrite foldl_add. lia. Qed.

Lemma sum_app xs ys : sum (xs ++ ys) = sum xs + sum ys.
Proof.
  induction xs as [|x xs IH]; [reflexivity|].
  simpl. rewrite !sum_cons, IH. lia.
Qed.

Lemma get_setitem d key v key' default :
  get (setitem d key v) key' default
  = if key_eq key key' then v else get d key' default.
Proof.
  induction d as [|[k v0] d IH]; simpl; [reflexivity|].
  destruct (key_eq k key) eqn:E; simpl; [|rewrite IH];
    unfold key_eq in *; repeat case_bool_decide; congruence.
Qed.

Lemma sum_setitem d key v :
  sum (setitem d key v).*2 = sum d.*2 - get d key 0 + v.
Proof.
  induction d as [|[k v0] d IH]; [unfold sum; simpl; lia|].
  cbn [setitem get]. destruct (key_eq k key);
    rewrite !fmap_cons, !sum_cons; cbn [snd]; [|rewrite IH]; lia.
Qed.

Lemma keys_setitem d key v :
  NoDup (as_key <$> d.*1) -> NoDup (as_key <$> (setitem d key v).*1).
Proof.
  induction d as [|[k v0] d IH]; simpl.
  - intros _. constructor; [apply not_elem_of_nil|constructor].
  - intros [Hk Hd]%NoDup_cons.
    destruct (key_eq k key) eqn:E; simpl; [constructor; assumption|].
    constructor; [|apply IH, Hd].
    intros Hin. apply Hk. clear IH Hk Hd.
    induction d as [|[k1 v1] d IH]; simpl in *.
    + apply list_elem_of_singleton in Hin.
      unfold key_eq in E. case_bool_decide; congruence.
    + destruct (key_eq k1 key); simpl in *; [exact Hin|].
      apply elem_of_cons in Hin as [->|Hin]; [left|right; apply IH, Hin].
Qed.

Lemma values_setitem d key v :
  1 <= v -> Forall (fun item => 1 <= item.2) d ->
  Forall (fun item => 1 <= item.2) (setitem d key v).
Proof.
  intros Hv. induction d as [|[k v0] d IH]; simpl; intros Hd.
  - constructor; [exact Hv|constructor].
  - apply Forall_cons in Hd as [H0 Hd].
    destruct (key_eq k key); constructor; auto.
Qed.

Lemma get_nonneg d key :
  Forall (fun item => 1 <= item.2) d -> 0 <= get d key 0.
Proof.
  induction d as [|[k v0] d IH]; simpl; intros Hd; [lia|].
  apply Forall_cons in Hd as [H0 Hd]. simpl in H0.
  destruct (key_eq k key); [lia|apply IH, Hd].
Qed.

Lemma getitem_contains d key :
  contains d key = true -> getitem d key = Ok (get d key 0).
Proof.
  induction d as [|[k v0] d IH]; simpl; [discriminate|].
  destruct (key_eq k key); simpl; [reflexivity|exact IH].
Qed.

Lemma get_absent d key default : contains d key = false -> get d key default = default.
Proof.
  induction d as [|[k v0] d IH]; simpl; [reflexivity|].
  destruct (key_eq k key); simpl; [discriminate|exact IH].
Qed.

Lemma getitem_setitem d key v : getitem (setitem d key v) key = Ok v.
Proof.
  induction d as [|[k v0] d IH]; simpl.
  - unfold key_eq. rewrite bool_decide_eq_true_2 by reflexivity. reflexivity.
  - destruct (key_eq k key) eqn:E; simpl; rewrite E; [reflexivity|exact IH].
Qed.

Lemma setitem_setitem d key v w :
  setitem (setitem d key v) key w = setitem d key w.
Proof.
  induction d as [|[k v0] d IH]; simpl.
  - unfold key_eq. rewrite bool_decide_eq_true_2 by reflexivity. reflexivity.
  - destruct (key_eq k key) eqn:E; simpl; rewrite E; [reflexivity|].
    f_equal. exact IH.
Qed.

End Dicts.

(** ** Statistics of retrieved documents *)

Section RetrievalStats.
Import Py PyList PyDict RetrieverStats.

Lemma filed_under_cons key doc documents :
  filed_under key (doc :: documents)
  = (if key_eq (source_file doc) key then 1 else 0) + filed_under key documents.
Proof.
  unfold filed_under, llen. rewrite filter_cons.
  destruct (key_eq (source_file doc) key) eqn:E.
  - rewrite decide_True by reflexivity. simpl length. lia.
  - rewrite decide_False by discriminate. lia.
Qed.

Lemma sources_loop_counts documents : forall d,
  Forall (fun item => 1 <= item.2) d ->
  NoDup (as_key <$> d.*1) ->
  (forall key, get (sources_loop documents d) key 0
               = get d key 0 + filed_under key documents)
  /\ sum (sources_loop documents d).*2 = sum d.*2 + llen documents
  /\ NoDup (as_key <$> (sources_loop documents d).*1)
  /\ Forall (fun item => 1 <= item.2) (sources_loop documents d).
Proof.
  induction documents as [|doc documents IH]; intros d Hv Hk; simpl.
  - split; [intros key; unfold filed_under, llen; rewrite filter_nil; simpl; lia|].
    split; [unfold llen; simpl; lia|]. split; assumption.
  - pose proof (get_nonneg d (source_file doc) Hv) as H0.
    destruct (IH (setitem d (source_file doc) (get d (source_file doc) 0 + 1)))
      as (Hget & Hsum & Hk' & Hv').
    { apply values_setitem; [lia|exact Hv]. }
    { apply keys_setitem, Hk. }
    split; [|split; [|split; assumption]].
    + intros key. rewrite Hget, get_setitem, filed_under_cons.
      destruct (key_eq (source_file doc) key) eqn:E; [|lia].
      assert (Hsame : get d (source_file doc) 0 = get d key 0); [|lia].
      clear -E. induction d as [|[k v0] d IH]; simpl; [reflexivity|].
      rewrite IH.
      replace (key_eq k key) with (key_eq k (source_file doc)); [reflexivity|].
      unfold key_eq in *. repeat case_bool_decide; congruence.
    + rewrite Hsum, sum_setitem. unfold llen. simpl length. lia.
Qed.

(** X17. When [get_retrieval_stats] lists sources, there was at least one
    document, ["count"] is their number, and ["sources"] files every
    document under its ['source_file'] (['unknown'] without one): the entry
    of a key is the number of documents with that source, the entries add
    up to ["count"], no key is listed twice and none with a count below 1.
    For no documents the result has ["count"] and nothing else. *)
Theorem get_retrieval_stats_sources (documents : list Document) (d : dict) :
  sources (get_retrieval_stats documents) = Some d ->
  documents <> []
  /\ count (get_retrieval_stats documents) = llen documents
  /\ (forall key, get d key 0 = filed_under key documents)
  /\ sum d.*2 = llen documents
  /\ NoDup (as_key <$> d.*1)
  /\ Forall (fun item => 1 <= item.2) d.
Proof.
  destruct documents as [|doc documents]; [discriminate|].
  intros H.
  assert (d = sources_loop (doc :: documents) []) as ->
    by (injection H as <-; reflexivity).
  clear H. split; [discriminate|]. split; [reflexivity|].
  destruct (sources_loop_counts (doc :: documents) [])
    as (Hget & Hsum & Hk & Hv); [constructor|constructor|].
  split; [intros key; rewrite Hget; reflexivity|].
  split; [rewrite Hsum; reflexivity|]. split; assumption.
Qed.

(** X17 at three documents, two of one file and one without a source. *)
Lemma get_retrieval_stats_sources_witness :
  let a := {| page_content := u "x";
              metadata := {[ "source_file" := VStr (u "a.pdf") ]} |} in
  let b := {| page_content := u "yz"; metadata := ∅ |} in
  get [(VStr (u "a.pdf"), 2); (VStr (u "unknown"), 1)] (VStr (u "a.pdf")) 0
  = filed_under (VStr (u "a.pdf")) [a; b; a].
Proof.
  intros a b.
  destruct (get_retrieval_stats_sources [a; b; a]
              [(VStr (u "a.pdf"), 2); (VStr (u "unknown"), 1)] eq_refl)
    as (_ & _ & Hget & _).
  apply Hget.
Defined.

End RetrievalStats.

(** ** Statistics of loaded documents *)

Section LoadedStats.
Import Py PyList PyDict DocumentStats.

Lemma az_files_loop_sources_loop documents d :
  AzureBlobDocumentLoaderStats.files_loop documents d
  = RetrieverStats.sources_loop documents d.
Proof.
  revert d. induction documents as [|doc documents IH]; intros d; simpl;
    [reflexivity|apply IH].
Qed.

Lemma lc_files_loop_az documents : forall d,
  DocumentLoaderStats.files_loop documents d
  = Ok (AzureBlobDocumentLoaderStats.files_loop documents d).
Proof.
  induction documents as [|doc documents IH]; intros d; simpl; [reflexivity|].
  destruct (contains d (source_file doc)) eqn:E.
  - rewrite (getitem_contains _ _ E). apply IH.
  - rewrite getitem_setitem, setitem_setitem, (get_absent _ _ _ E). apply IH.
Qed.

(** X18. The two loaders compute the same statistics: the
    [get_document_stats] of the LangChain loader, which writes
    [files[source] = 0] for a new source and then [files[source] += 1],
    never raises a [KeyError] and returns what the [get_document_stats] of
    the Azure loader returns, which counts with
    [files.get(source, 0) + 1]. *)
Theorem get_document_stats_agree (documents : list Document) :
  DocumentLoaderStats.get_document_stats documents
  = Ok (AzureBlobDocumentLoaderStats.get_document_stats documents).
Proof.
  destruct documents as [|doc documents]; [reflexivity|].
  unfold DocumentLoaderStats.get_document_stats,
    AzureBlobDocumentLoaderStats.get_document_stats.
  rewrite lc_files_loop_az. reflexivity.
Qed.

Lemma count_chars_nonneg documents : 0 <= count_chars documents.
Proof.
  unfold count_chars.
  induction documents as [|doc documents IH]; [unfold sum; simpl; lia|].
  rewrite fmap_cons, sum_cons.
  assert (0 <= len (page_content doc)) by (unfold len; lia). lia.
Qed.

(** X19. For at least one document, the statistics of the Azure loader
    are consistent: ["total_docs"] is the number of documents,
    ["avg_chars_per_doc"] is the mean length rounded down (so
    [avg * total_docs <= total_chars < (avg + 1) * total_docs]), the entry
    of ["files"] for a source is the number of documents with that source,
    and the entries add up to ["total_docs"]. For no documents all three
    numbers are 0 and there is no ["files"] entry. *)
Theorem get_document_stats_consistent (documents : list Document) (d : dict) :
  let stats := AzureBlobDocumentLoaderStats.get_document_stats documents in
  files stats = Some d ->
  documents <> []
  /\ total_docs stats = llen documents
  /\ 0 <= avg_chars_per_doc stats
  /\ avg_chars_per_doc stats * total_docs stats <= total_chars stats
     < (avg_chars_per_doc stats + 1) * total_docs stats
  /\ (forall key, get d key 0 = RetrieverStats.filed_under key documents)
  /\ sum d.*2 = total_docs stats
  /\ NoDup (as_key <$> d.*1).
Proof.
  destruct documents as [|doc documents]; [discriminate|].
  intros stats H.
  assert (d = RetrieverStats.sources_loop (doc :: documents) []) as ->.
  { rewrite <- az_files_loop_sources_loop. injection H as <-. reflexivity. }
  clear H. split; [discriminate|]. split; [reflexivity|].
  assert (Hn : 0 < llen (doc :: documents)) by (unfold llen; simpl length; lia).
  pose proof (count_chars_nonneg (doc :: documents)) as Hc.
  split; [apply Z.div_pos; [exact Hc|exact Hn]|].
  split.
  - unfold stats. cbn [avg_chars_per_doc total_docs total_chars
                       AzureBlobDocumentLoaderStats.get_document_stats].
    pose proof (Z.div_mod (count_chars (doc :: documents))
                  (llen (doc :: documents)) ltac:(lia)) as Hdm.
    pose proof (Z.mod_pos_bound (count_chars (doc :: documents))
                  (llen (doc :: documents)) Hn) as Hm.
    nia.
  - destruct (sources_loop_counts (doc :: documents) [])
      as (Hget & Hsum & Hk & _); [constructor|constructor|].
    split; [intros key; rewrite Hget; reflexivity|].
    split; [rewrite Hsum; reflexivity|exact Hk].
Qed.

(** X19 at two pages of one file, of 3 and 4 characters. *)
Lemma get_document_stats_consistent_witness :
  3 * 2 <= 7 < (3 + 1) * 2.
Proof.
  pose (a := {| page_content := u "abc";
                metadata := {[ "source_file" := VStr (u "a.pdf") ]} |}).
  pose (b := {| page_content := u "defg";
                metadata := {[ "source_file" := VStr (u "a.pdf") ]} |}).
  destruct (get_document_stats_consistent [a; b] [(VStr (u "a.pdf"), 2)] eq_refl)
    as (_ & _ & _ & Havg & _).
  exact Havg.
Defined.

End LoadedStats.

(** ** Loading from the blob container *)

Section Loading.
Import Py PyList AzureBlobDocumentLoader.
Variable list_blobs : result (list str).
Variable read_pdf : str -> result (list (result str)).

Lemma pages_loop_readable name total_pages pages : forall page_num documents,
  pages_loop name total_pages (Z.of_nat page_num) pages documents
  = documents
    ++ List.filter (fun d => truthy (strip (page_content d)))
         (imap (fun i text =>
                  page_doc name (Z.of_nat (page_num + i)) total_pages text)
            (readable pages)).
Proof.
  induction pages as [|[text|e] pages IH]; intros page_num documents;
    try (simpl; rewrite app_nil_r; reflexivity).
  cbn [pages_loop readable]. rewrite imap_cons. cbn [List.filter].
  replace (Z.of_nat page_num + 1) with (Z.of_nat (S page_num)) by lia.
  rewrite IH, Nat.add_0_r.
  rewrite (imap_ext
             ((fun i text' =>
                 page_doc name (Z.of_nat (page_num + i)) total_pages text') ∘ S)
             (fun i text' =>
                page_doc name (Z.of_nat (S page_num + i)) total_pages text')).
  2: { intros i text' _. simpl. f_equal. lia. }
  cbn [page_content page_doc].
  destruct (truthy (strip text)); [|reflexivity].
  rewrite <- app_assoc. reflexivity.
Qed.

Lemma blobs_loop_documents pdf_blobs : forall documents,
  blobs_loop read_pdf pdf_blobs documents
  = documents ++ concat (blob_documents read_pdf <$> pdf_blobs).
Proof.
  induction pdf_blobs as [|name pdf_blobs IH]; intros documents; simpl;
    [rewrite app_nil_r; reflexivity|].
  unfold blob_documents at 1.
  destruct (read_pdf name) as [pages|e]; [|apply IH].
  rewrite IH. change 0 with (Z.of_nat 0).
  rewrite pages_loop_readable, <- app_assoc. reflexivity.
Qed.

(** X20. [load_documents] raises only when listing the container raises.
    Otherwise it returns, for the blobs whose name ends in [.pdf], in the
    order of the listing, the pages that are not blank: each with the name
    of its blob, its position among all the pages of the PDF (blank pages
    are counted, so the numbers of the loaded pages can have gaps) and the
    total number of pages. A blob that cannot be read gives no document; a
    page whose text extraction raises ends its blob, whose earlier pages
    stay loaded. *)
Theorem load_documents_pages :
  match list_blobs with
  | Raise e => load_documents list_blobs read_pdf = Raise e
  | Ok blob_list =>
      load_documents list_blobs read_pdf
      = Ok (concat (blob_documents read_pdf
                      <$> List.filter (fun name => endswith name (u ".pdf"))
                            blob_list))
  end.
Proof.
  unfold load_documents. destruct list_blobs as [blob_list|e]; [|reflexivity].
  destruct (List.filter _ blob_list) as [|name pdf_blobs] eqn:E; [reflexivity|].
  rewrite blobs_loop_documents. reflexivity.
Qed.

Lemma readable_lookup pages i text :
  readable pages !! i = Some text -> pages !! i = Some (Ok text).
Proof.
  revert i. induction pages as [|[text'|e] pages IH]; intros i; simpl;
    try discriminate.
  destruct i as [|i]; simpl; [intros [= ->]; reflexivity|apply IH].
Qed.

(** Every document that the blob loop adds is a page of a PDF blob that is
    not blank, labelled with its blob and its position. *)
Lemma blob_documents_each name d :
  d ∈ blob_documents read_pdf name ->
  strip (page_content d) <> []
  /\ exists pages page_num,
       read_pdf name = Ok pages
       /\ pages !! page_num = Some (Ok (page_content d))
       /\ metadata d
          = {[ "source_file" := VStr name;
               "page" := VInt (Z.of_nat page_num);
               "total_pages" := VInt (llen pages) ]}.
Proof.
  unfold blob_documents.
  destruct (read_pdf name) as [pages|e]; [|intros []%elem_of_nil].
  intros [Hin Ht]%list_elem_of_In%filter_In.
  apply list_elem_of_In, elem_of_lookup_imap in Hin as (i & text & -> & Hi).
  simpl in *. split; [intros E; rewrite E in Ht; discriminate Ht|].
  exists pages, i. split; [reflexivity|].
  split; [apply readable_lookup, Hi|reflexivity].
Qed.

Lemma load_documents_each documents d :
  load_documents list_blobs read_pdf = Ok documents ->
  d ∈ documents ->
  exists name,
    endswith name (u ".pdf") = true
    /\ d ∈ blob_documents read_pdf name.
Proof.
  unfold load_documents. destruct list_blobs as [blob_list|e]; [|discriminate].
  intros H Hd.
  assert (documents
          = concat (blob_documents read_pdf
                      <$> List.filter (fun name => endswith name (u ".pdf"))
                            blob_list)) as ->.
  { destruct (List.filter _ blob_list) as [|name pdf_blobs] eqn:E;
      [injection H as <-; reflexivity|].
    rewrite blobs_loop_documents in H. injection H as <-. reflexivity. }
  apply list_elem_of_In, in_concat in Hd as (group & Hg & Hd).
  apply list_elem_of_In, list_elem_of_fmap in Hg as (name & -> & Hname).
  apply list_elem_of_In, filter_In in Hname as [_ Hpdf].
  exists name. split; [exact Hpdf|apply list_elem_of_In, Hd].
Qed.

End Loading.

(** ** From the container to the chunks *)

Section LoadAndChunk.
Import Py PyList AzureBlobDocumentLoader TextChunker Pieces.

(** X21. The documents of [load_documents] never lead to a blank chunk:
    every document that [chunk_documents] makes of them holds text that is
    not blank, a run of consecutive characters of a page of a PDF blob, and
    its ["source_file"] and ["page"] name that blob and the position of
    that page. *)
Theorem load_then_chunk_documents (list_blobs : result (list str))
    (read_pdf : str -> result (list (result str)))
    (fuel : nat) (c : t) (documents chunked_docs : list Document) :
  load_documents list_blobs read_pdf = Ok documents ->
  chunk_documents fuel c documents = Some chunked_docs ->
  Forall (fun d =>
            strip (page_content d) <> []
            /\ exists name pages page_num text,
                 endswith name (u ".pdf") = true
                 /\ read_pdf name = Ok pages
                 /\ pages !! page_num = Some (Ok text)
                 /\ piece_of (page_content d) text
                 /\ metadata d !! "source_file" = Some (VStr name)
                 /\ metadata d !! "page" = Some (VInt (Z.of_nat page_num)))
    chunked_docs.
Proof.
  intros Hload Hchunk.
  pose proof (chunk_documents_each
                (fun parent d =>
                   (strip (page_content parent) <> []
                    -> strip (page_content d) <> [])
                   /\ piece_of (page_content d) (page_content parent)
                   /\ forall key : string,
                        key <> "chunk" -> key <> "total_chunks" ->
                        metadata d !! key = metadata parent !! key)
                fuel c documents chunked_docs) as Heach.
  eapply Forall_impl; [apply Heach; [|exact Hchunk]|].
  - intros parent chunks i d _ Hs (Hc & _ & _ & _ & Hm).
    split; [|split; [|exact Hm]].
    + intros Hparent.
      pose proof (split_text_non_blank _ _ _ _ Hparent Hs) as Hall.
      rewrite Forall_lookup in Hall. apply (Hall i _ Hc).
    + apply split_text_pieces in Hs. rewrite Forall_lookup in Hs.
      apply (Hs i _ Hc).
  - simpl. intros d (parent & Hin & Hnb & Hpiece & Hm).
    destruct (load_documents_each _ _ _ _ Hload Hin) as (name & Hpdf & Hb).
    apply blob_documents_each in Hb as (Hparent & pages & page_num & Hr & Hp & Hmeta).
    split; [apply Hnb, Hparent|].
    exists name, pages, page_num, (page_content parent).
    split; [exact Hpdf|]. split; [exact Hr|]. split; [exact Hp|].
    split; [exact Hpiece|].
    rewrite !Hm, Hmeta by discriminate. split; reflexivity.
Qed.

(** X21 at a container with one PDF of a page and a blank page, and a
    text file. *)
Lemma load_then_chunk_documents_witness :
  Forall (fun d =>
            strip (page_content d) <> []
            /\ exists name pages page_num text,
                 endswith name (u ".pdf") = true
                 /\ (if bool_decide (name = u "a.pdf")
                     then Ok [Ok (u "A. B. C."); Ok (u "  ")]
                     else Raise "missing") = Ok pages
                 /\ pages !! page_num = Some (Ok text)
                 /\ piece_of (page_content d) text
                 /\ metadata d !! "source_file" = Some (VStr name)
                 /\ metadata d !! "page" = Some (VInt (Z.of_nat page_num)))
    (imap (fun i chunk =>
             chunked_doc
               {[ "source_file" := VStr (u "a.pdf");
                  "page" := VInt 0;
                  "total_pages" := VInt 2 ]} i chunk 3)
       [u "A. B."; u "B. C."; u "C."]).
Proof.
  apply (load_then_chunk_documents
           (Ok [u "a.pdf"; u "notes.txt"])
           (fun name => if bool_decide (name = u "a.pdf")
                        then Ok [Ok (u "A. B. C."); Ok (u "  ")]
                        else Raise "missing")
           3 {| chunk_size := 5; chunk_overlap := 2 |}
           [ page_doc (u "a.pdf") 0 2 (u "A. B. C.") ]).
  - vm_compute. reflexivity.
  - vm_compute. reflexivity.
Defined.

End LoadAndChunk.

(** ** Uploading to the search index *)

Section Upload.
Import Py PyList Batches AzureOpenAIEmbedder AzureSearchManager.

Lemma str_of_uint_inj d d' : str_of_uint d = str_of_uint d' -> d = d'.
Proof.
  revert d'. induction d; intros d'; destruct d'; simpl; intros H;
    try discriminate; try reflexivity;
    injection H as H; f_equal; apply IHd, H.
Qed.

Lemma str_of_int_inj n m : str_of_int n = str_of_int m -> n = m.
Proof.
  intros H. rewrite <- (DecimalZ.of_to n), <- (DecimalZ.of_to m). f_equal.
  unfold str_of_int in H.
  destruct (Z.to_int n) as [d|d], (Z.to_int m) as [d'|d'];
    [f_equal; apply str_of_uint_inj, H| | |].
  - destruct d; discriminate H.
  - destruct d'; discriminate H.
  - f_equal. apply str_of_uint_inj. injection H as H. exact H.
Qed.

Lemma convert_loop_imap idx documents search_documents :
  convert_loop idx documents search_documents
  = search_documents
    ++ imap (fun i d => search_document (idx + i) d) documents.
Proof.
  revert idx search_documents.
  induction documents as [|d documents IH]; intros idx search_documents; simpl;
    [rewrite app_nil_r; reflexivity|].
  rewrite IH, <- app_assoc, Nat.add_0_r. simpl. do 2 f_equal.
  apply imap_ext. intros i d' _. simpl. f_equal. lia.
Qed.

Lemma upload_loop_calls upload call search_documents indices calls :
  (upload_loop upload call search_documents indices calls).*1
  = calls.*1
    ++ ((fun i => lslice search_documents i (i + batch_size)) <$> indices).
Proof.
  revert call calls.
  induction indices as [|i indices IH]; intros call calls; simpl;
    [rewrite app_nil_r; reflexivity|].
  destruct (upload call _); rewrite IH, fmap_app, <- app_assoc; reflexivity.
Qed.

Lemma sent_documents upload documents :
  (upload_documents upload documents).*1
  = batches AzureSearchManager.batch_size (imap search_document documents).
Proof.
  unfold upload_documents. rewrite upload_loop_calls, convert_loop_imap.
  reflexivity.
Qed.

(** X22. Whether the service takes a batch or raises, [upload_documents]
    sends every document exactly once and in order, in batches of 1 to 100:
    the document at position [i] goes out with the id ["doc_i"], its
    content and embedding, and its ["source_file"], ["page"] and ["chunk"]
    (or [""], [0] and [0]). The ids of one upload are pairwise distinct. *)
Theorem upload_documents_sends_all (upload : nat -> list search_doc -> result unit)
    (documents : list embedded_doc) :
  let sent := (upload_documents upload documents).*1 in
  sent = batches AzureSearchManager.batch_size (imap search_document documents)
  /\ concat sent = imap search_document documents
  /\ Forall (fun batch => 1 <= llen batch <= 100) sent
  /\ llen sent = (llen documents + 99) / 100
  /\ NoDup (id <$> concat sent).
Proof.
  intros sent. unfold sent. rewrite sent_documents.
  split; [reflexivity|].
  rewrite concat_batches by reflexivity.
  split; [reflexivity|]. split; [apply batches_sizes; reflexivity|].
  split.
  - rewrite length_batches by reflexivity. unfold llen.
    rewrite length_imap. change batch_size with 100. f_equal. lia.
  - apply NoDup_alt. intros i j x.
    rewrite !list_lookup_fmap, !list_lookup_imap.
    destruct (documents !! i) as [d|]; [|discriminate].
    destruct (documents !! j) as [d'|]; [|discriminate].
    simpl. intros [= <-] [= H]. apply str_of_int_inj in H. lia.
Qed.

(** X23. The id of a search document is its position in the list given to
    [upload_documents] and nothing else: the documents at position [i] of
    any two uploads go out under the same id ["doc_i"], whatever they
    hold. *)
Theorem upload_documents_reuses_ids
    (upload upload' : nat -> list search_doc -> result unit)
    (documents documents' : list embedded_doc) (i : nat) (s s' : search_doc) :
  concat (upload_documents upload documents).*1 !! i = Some s ->
  concat (upload_documents upload' documents').*1 !! i = Some s' ->
  id s = u "doc_" ++ str_of_int (Z.of_nat i) /\ id s' = id s.
Proof.
  rewrite !sent_documents, !concat_batches by reflexivity.
  rewrite !list_lookup_imap.
  destruct (documents !! i) as [d|]; [|discriminate].
  destruct (documents' !! i) as [d'|]; [|discriminate].
  simpl. intros [= <-] [= <-]. split; reflexivity.
Qed.

(** X23 at two uploads of one document each. *)
Lemma upload_documents_reuses_ids_witness :
  u "doc_0" = u "doc_" ++ str_of_int (Z.of_nat 0) /\ u "doc_0" = u "doc_0".
Proof.
  apply (upload_documents_reuses_ids
           (fun _ _ => Ok tt) (fun _ _ => Raise "down")
           [ {| doc := {| page_content := u "first"; metadata := ∅ |};
                embedding := [] |} ]
           [ {| doc := {| page_content := u "second"; metadata := ∅ |};
                embedding := [] |} ]
           0%nat
           (search_document 0
              {| doc := {| page_content := u "first"; metadata := ∅ |};
                 embedding := [] |})
           (search_document 0
              {| doc := {| page_content := u "second"; metadata := ∅ |};
                 embedding := [] |}));
    reflexivity.
Defined.

End Upload.

(** ** Chunk ids of the LangChain pipeline *)

Section LcChunks.
Import Py PyList PyDict LcEmbeddingPipeline.

Lemma enrich_loop_other_keys chunks : forall i s a key,
  key <> "chunk_id" ->
  (enrich_loop i chunks s !!! a) !! key = (s !!! a) !! key.
Proof.
  induction chunks as [|c chunks IH]; intros i s a key Hkey; simpl;
    [reflexivity|].
  rewrite IH by exact Hkey. unfold metadata_of, store in *.
  destruct (decide (metadata_at c = a)) as [<-|Hne].
  - rewrite lookup_total_insert_eq, lookup_insert_ne by congruence. reflexivity.
  - rewrite lookup_total_insert_ne by exact Hne. reflexivity.
Qed.

Lemma enrich_loop_untouched chunks : forall i s a,
  Forall (fun c => metadata_at c <> a) chunks ->
  enrich_loop i chunks s !!! a = s !!! a.
Proof.
  induction chunks as [|c chunks IH]; intros i s a Hall; simpl; [reflexivity|].
  apply Forall_cons in Hall as [Hc Hall].
  rewrite IH by exact Hall. unfold store in *.
  apply lookup_total_insert_ne, Hc.
Qed.

Lemma enrich_loop_chunk_id chunks : forall i s n c,
  chunks !! n = Some c ->
  (forall m c', (n < m)%nat -> chunks !! m = Some c' ->
                metadata_at c' <> metadata_at c) ->
  metadata_of (enrich_loop i chunks s) c !! "chunk_id"
  = Some (VInt (i + Z.of_nat n)).
Proof.
  induction chunks as [|c0 chunks IH]; intros i s n c Hn Hlast;
    [discriminate Hn|].
  destruct n as [|n]; simpl in Hn |- *.
  - injection Hn as ->. unfold metadata_of.
    rewrite enrich_loop_untouched.
    + unfold store in *.
      rewrite lookup_total_insert_eq, lookup_insert_eq. do 2 f_equal. lia.
    + apply Forall_lookup. intros m c' Hm.
      apply (Hlast (S m) c'); [lia|exact Hm].
  - rewrite (IH (i + 1) _ n c Hn).
    + do 2 f_equal. lia.
    + intros m c' Hlt Hm. apply (Hlast (S m) c'); [lia|exact Hm].
Qed.

(** X24. The [chunk_documents] of the LangChain pipeline raises
    [ZeroDivisionError] exactly when the splitter returns no chunk, as it
    does for no documents: the average for the log line divides by the
    number of chunks. Otherwise it returns the chunks of the splitter, and
    every metadata dictionary has got as ['chunk_id'] the position of the
    last chunk that points to it, which is the position of the chunk itself
    when no later chunk shares its dictionary; the other entries are as the
    splitter left them. *)
Theorem lc_chunk_documents_chunk_ids
    (split_documents : list Document -> store * list chunk)
    (documents : list Document) (s : store) (chunks : list chunk) :
  split_documents documents = (s, chunks) ->
  match chunk_documents split_documents documents with
  | Raise e => chunks = [] /\ e = "ZeroDivisionError"
  | Ok (s', chunks') =>
      chunks <> [] /\ chunks' = chunks
      /\ (forall n c,
            chunks !! n = Some c ->
            (forall m c', (n < m)%nat -> chunks !! m = Some c' ->
                          metadata_at c' <> metadata_at c) ->
            metadata_of s' c !! "chunk_id" = Some (VInt (Z.of_nat n)))
      /\ (forall c key,
            key <> "chunk_id" ->
            metadata_of s' c !! key = metadata_of s c !! key)
  end.
Proof.
  intros Hs. unfold chunk_documents, floordiv. rewrite Hs.
  destruct chunks as [|c0 chunks]; [split; reflexivity|].
  destruct (Z.eqb_spec (llen (c0 :: chunks)) 0) as [E|_];
    [unfold llen in E; simpl in E; lia|].
  split; [discriminate|]. split; [reflexivity|]. split.
  - intros n c Hn Hlast.
    rewrite (enrich_loop_chunk_id _ 0 s n c Hn Hlast). reflexivity.
  - intros c key Hkey. apply enrich_loop_other_keys, Hkey.
Qed.

(** X24 at two chunks that share one dictionary and a third with its
    own: the shared dictionary ends with the id of the second chunk. *)
Lemma lc_chunk_documents_chunk_ids_witness :
  let chunks := [ {| chunk_content := u "a"; metadata_at := 7 |};
                  {| chunk_content := u "b"; metadata_at := 7 |};
                  {| chunk_content := u "c"; metadata_at := 8 |} ] in
  match chunk_documents (fun _ => (∅, chunks)) [] with
  | Raise e => chunks = [] /\ e = "ZeroDivisionError"
  | Ok (s', chunks') =>
      chunks <> [] /\ chunks' = chunks
      /\ (forall n c,
            chunks !! n = Some c ->
            (forall m c', (n < m)%nat -> chunks !! m = Some c' ->
                          metadata_at c' <> metadata_at c) ->
            metadata_of s' c !! "chunk_id" = Some (VInt (Z.of_nat n)))
      /\ (forall c key,
            key <> "chunk_id" ->
            metadata_of s' c !! key = metadata_of (∅ : store) c !! key)
  end.
Proof.
  intros chunks.
  apply (lc_chunk_documents_chunk_ids (fun _ => (∅, chunks)) [] ∅ chunks).
  reflexivity.
Defined.

Lemma foldl_min_le x xs :
  foldl Z.min x xs <= x /\ Forall (fun y => foldl Z.min x xs <= y) xs.
Proof.
  revert x. induction xs as [|y xs IH]; intros x; simpl; [split; [lia|constructor]|].
  destruct (IH (Z.min x y)) as [H1 H2]. split; [lia|].
  constructor; [lia|exact H2].
Qed.

Lemma foldl_min_in x xs : foldl Z.min x xs ∈ x :: xs.
Proof.
  revert x. induction xs as [|y xs IH]; intros x; simpl; [left|].
  specialize (IH (Z.min x y)).
  apply elem_of_cons in IH as [->|IH]; [|right; right; exact IH].
  destruct (Z.min_spec x y) as [[_ ->]|[_ ->]]; [left|right; left].
Qed.

Lemma foldl_max_ge x xs :
  x <= foldl Z.max x xs /\ Forall (fun y => y <= foldl Z.max x xs) xs.
Proof.
  revert x. induction xs as [|y xs IH]; intros x; simpl; [split; [lia|constructor]|].
  destruct (IH (Z.max x y)) as [H1 H2]. split; [lia|].
  constructor; [lia|exact H2].
Qed.

Lemma foldl_max_in x xs : foldl Z.max x xs ∈ x :: xs.
Proof.
  revert x. induction xs as [|y xs IH]; intros x; simpl; [left|].
  specialize (IH (Z.max x y)).
  apply elem_of_cons in IH as [->|IH]; [|right; right; exact IH].
  destruct (Z.max_spec x y) as [[_ ->]|[_ ->]]; [right; left|left].
Qed.

Lemma sum_bounds lo hi xs :
  Forall (fun y => lo <= y <= hi) xs ->
  lo * llen xs <= sum xs <= hi * llen xs.
Proof.
  induction 1 as [|y xs Hy _ IH]; [unfold sum, llen; simpl; lia|].
  rewrite sum_cons. unfold llen in *. simpl length. lia.
Qed.

(** X25. [get_chunk_stats] never raises: it returns the empty dictionary
    for no chunks, and otherwise statistics that are consistent. The
    smallest and the largest size are sizes of chunks and bound the size of
    every chunk, the average lies between them, and it is the total number
    of characters divided by the number of chunks, rounded down. *)
Theorem get_chunk_stats_bounds (chunks : list chunk) :
  match get_chunk_stats chunks with
  | Raise _ => False
  | Ok None => chunks = []
  | Ok (Some stats) =>
      chunks <> []
      /\ total_chunks stats = llen chunks
      /\ total_chars stats = sum (len ∘ chunk_content <$> chunks)
      /\ min_size stats <= avg_size stats <= max_size stats
      /\ avg_size stats * total_chunks stats <= total_chars stats
         < (avg_size stats + 1) * total_chunks stats
      /\ Forall (fun c => min_size stats <= len (chunk_content c)
                          <= max_size stats) chunks
      /\ (exists c, c ∈ chunks /\ len (chunk_content c) = min_size stats)
      /\ (exists c, c ∈ chunks /\ len (chunk_content c) = max_size stats)
  end.
Proof.
  destruct chunks as [|c0 chunks]; [reflexivity|].
  unfold get_chunk_stats, floordiv.
  set (sizes := len ∘ chunk_content <$> c0 :: chunks).
  assert (Hn : 0 < llen (c0 :: chunks)) by (unfold llen; simpl length; lia).
  destruct (Z.eqb_spec (llen (c0 :: chunks)) 0) as [E|_]; [lia|].
  change sizes with (len (chunk_content c0) :: (len ∘ chunk_content <$> chunks)).
  cbn [min_of max_of total_chunks min_size max_size avg_size total_chars].
  fold sizes.
  set (x := len (chunk_content c0)).
  set (xs := len ∘ chunk_content <$> chunks).
  destruct (foldl_min_le x xs) as [Hmin0 Hmin].
  destruct (foldl_max_ge x xs) as [Hmax0 Hmax].
  assert (Hall : Forall (fun y => foldl Z.min x xs <= y <= foldl Z.max x xs) sizes).
  { constructor; [change ((len ∘ chunk_content) c0) with x; lia|].
    rewrite Forall_forall in Hmin, Hmax. apply Forall_forall.
    intros y Hy. split; [apply Hmin, Hy|apply Hmax, Hy]. }
  assert (Hlen : llen sizes = llen (c0 :: chunks)).
  { unfold llen, sizes. rewrite length_fmap. reflexivity. }
  pose proof (sum_bounds _ _ _ Hall) as Hsum. rewrite Hlen in Hsum.
  pose proof (Z.div_mod (sum sizes) (llen (c0 :: chunks)) ltac:(lia)) as Hdm.
  pose proof (Z.mod_pos_bound (sum sizes) (llen (c0 :: chunks)) Hn) as Hm.
  split; [discriminate|]. split; [reflexivity|]. split; [reflexivity|].
  change (x :: xs) with sizes.
  split; [split; [apply Z.div_le_lower_bound|apply Z.div_le_upper_bound]; lia|].
  split; [nia|]. split; [|split].
  - unfold sizes in Hall. apply Forall_fmap in Hall. exact Hall.
  - pose proof (foldl_min_in x xs) as Hin.
    change (x :: xs) with sizes in Hin. unfold sizes in Hin.
    apply list_elem_of_fmap in Hin as (c & Hc & Hin).
    exists c. split; [exact Hin|symmetry; exact Hc].
  - pose proof (foldl_max_in x xs) as Hin.
    change (x :: xs) with sizes in Hin. unfold sizes in Hin.
    apply list_elem_of_fmap in Hin as (c & Hc & Hin).
    exists c. split; [exact Hin|symmetry; exact Hc].
Qed.

End LcChunks.

(** ** [RAGChain.query] of the LangChain pipeline *)

Section LcQuery.
Import Py PyList Retriever LcRAGChain.
Variable similarity_search : str -> Z -> result (list Document).
Variable top_k_results : Z.
Variable invoke : str -> str -> result (str * option (gmap string Z)).

Lemma slice_prefix (s : str) (k : Z) :
  0 <= k -> slice s 0 k = take (Z.to_nat k) s.
Proof.
  intros Hk. unfold slice, adjust_index.
  assert (Hlen : 0 <= len s) by (unfold len; lia).
  destruct (Z.ltb_spec 0 0); [lia|]. destruct (Z.ltb_spec k 0); [lia|].
  rewrite (Z.min_l 0) by lia. rewrite Z.sub_0_r.
  change (Z.to_nat 0) with 0%nat. rewrite drop_0.
  destruct (Z.le_gt_cases (len s) k).
  - rewrite Z.min_r by lia. unfold len in *. rewrite !take_ge by lia.
    reflexivity.
  - rewrite Z.min_l by lia. reflexivity.
Qed.

(** X26. [query] raises exactly when the search raises or, for at least
    one retrieved document, the language model raises on the context that
    [format_retrieved_context] makes of the documents: a failure of the
    model is a failure of [query], with the same exception. The search is
    asked for [k] documents, or for [settings.top_k_results] when [k] is
    missing or 0. *)
Theorem lc_query_raises (question : str) (k : option Z) (return_sources : bool)
    (e : string) :
  query similarity_search top_k_results invoke question k return_sources
  = Raise e
  <-> similarity_search question (k_or_default top_k_results k) = Raise e
      \/ exists documents,
           similarity_search question (k_or_default top_k_results k)
           = Ok documents
           /\ documents <> []
           /\ invoke (format_retrieved_context documents) question = Raise e.
Proof.
  unfold query, retrieve.
  destruct (similarity_search question _) as [[|d documents]|e'].
  - split; [discriminate|].
    intros [H|(documents & [= <-] & Hne & _)]; [discriminate H|].
    contradiction Hne; reflexivity.
  - destruct (invoke _ question) as [[answer usage]|e'] eqn:Hi.
    + split; [discriminate|].
      intros [H|(documents' & [= <-] & _ & H)]; [discriminate H|].
      rewrite Hi in H. discriminate H.
    + split.
      * intros [= ->]. right. exists (d :: documents).
        split; [reflexivity|]. split; [discriminate|exact Hi].
      * intros [H|(documents' & [= <-] & _ & H)]; [discriminate H|].
        rewrite Hi in H. injection H as ->. reflexivity.
  - split.
    + intros [= ->]. left. reflexivity.
    + intros [[= ->]|(documents & H & _)]; [reflexivity|discriminate H].
Qed.

(** X27. When [query] returns, ["num_sources"] is the number of retrieved
    documents. For at least one document the answer is what the model gave
    for the context of [format_retrieved_context]; ["sources"] is there
    exactly when [return_sources] is set and lists one entry per document,
    in order, whose content is the first 200 characters of the document
    followed by ["..."], also for a shorter document. For no documents the
    answer is the fixed sentence, ["sources"] is the empty list even when
    [return_sources] is not set, and there is no ["tokens_used"]. *)
Theorem lc_query_sources (question : str) (k : option Z)
    (return_sources : bool) (r : response) :
  query similarity_search top_k_results invoke question k return_sources
  = Ok r ->
  exists documents,
    similarity_search question (k_or_default top_k_results k) = Ok documents
    /\ num_sources r = llen documents
    /\ (documents = [] ->
        answer r = u "I don't have any relevant information to answer that question."
        /\ sources r = Some [] /\ tokens_used r = None)
    /\ (documents <> [] ->
        (exists usage,
           invoke (format_retrieved_context documents) question
           = Ok (answer r, usage)
           /\ tokens_used r = Some (default ∅ usage))
        /\ (return_sources = false -> sources r = None)
        /\ (return_sources = true ->
            exists listed,
              sources r = Some listed
              /\ length listed = length documents
              /\ forall i d, documents !! i = Some d ->
                   exists s,
                     listed !! i = Some s
                     /\ source_content s = take 200 (page_content d) ++ u "..."
                     /\ len (source_content s)
                        = Z.min (len (page_content d)) 200 + 3
                     /\ file s = default (VStr (u "unknown"))
                                   (metadata d !! "source_file")
                     /\ page s = default (VStr (u "N/A"))
                                   (metadata d !! "page"))).
Proof.
  unfold query, retrieve.
  destruct (similarity_search question _) as [documents|e]; [|discriminate].
  intros H. exists documents. split; [reflexivity|].
  destruct documents as [|d0 documents].
  - injection H as <-. split; [reflexivity|].
    split; [intros _; repeat split|intros Hne; contradiction Hne; reflexivity].
  - destruct (invoke _ question) as [[answer usage]|e] eqn:Hi; [|discriminate].
    injection H as <-. split; [reflexivity|]. split; [discriminate|].
    intros _. split; [exists usage; split; reflexivity|].
    split; [intros ->; reflexivity|]. intros ->.
    exists (source_of <$> d0 :: documents). split; [reflexivity|].
    split; [apply length_fmap|].
    intros i d Hd. exists (source_of d).
    split; [rewrite list_lookup_fmap, Hd; reflexivity|].
    assert (Hp : source_content (source_of d)
                 = take 200 (page_content d) ++ u "...").
    { unfold source_of. cbn [source_content].
      rewrite slice_prefix by lia. reflexivity. }
    split; [exact Hp|]. split; [|split; reflexivity].
    rewrite Hp. unfold len. rewrite length_app, length_take.
    change (length (u "...")) with 3%nat. lia.
Qed.

End LcQuery.

Section LcQueryWitness.
Import Py PyList Retriever LcRAGChain.

(** X27 at one retrieved document of three characters. *)
Lemma lc_query_sources_witness :
  exists documents,
    Ok [ {| page_content := u "abc"; metadata := ∅ |} ] = Ok documents
    /\ 1 = llen documents.
Proof.
  destruct (lc_query_sources
              (fun _ _ => Ok [ {| page_content := u "abc"; metadata := ∅ |} ])
              4 (fun _ _ => Ok (u "yes", None)) (u "q") None true
              {| answer := u "yes";
                 sources := Some [ source_of {| page_content := u "abc";
                                               metadata := ∅ |} ];
                 num_sources := 1;
                 tokens_used := Some ∅ |}
              eq_refl)
    as (documents & Hs & Hn & _).
  exists documents. split; [exact Hs|exact Hn].
Defined.

End LcQueryWitness.

(** ** Thresholds and scores that are not numbers *)

Section ThresholdNaN.
Import Py PyFloat Retriever.

Lemma float_ge_nan_r x t : isnan t = true -> float_ge x t = false.
Proof.
  unfold isnan, float_ge. rewrite leb_spec.
  destruct (Prim2SF t); try discriminate. intros _. reflexivity.
Qed.

Lemma float_ge_nan_l x t : isnan x = true -> float_ge x t = false.
Proof.
  unfold isnan, float_ge. rewrite leb_spec.
  destruct (Prim2SF x); try discriminate. intros _.
  destruct (Prim2SF t) as [| | |? ? ?]; try reflexivity; destruct s; reflexivity.
Qed.

(** X28. A score or a threshold that is a NaN passes no comparison:
    [retrieve_with_threshold] returns no document at all for a NaN
    threshold, and for any threshold it returns what it would return
    without the results whose score is a NaN. *)
Theorem retrieve_with_threshold_nan
    (search : str -> Z -> list (Document * float)) (top_k_results : Z)
    (query : str) (k : option Z) (t : float) :
  (isnan t = true ->
   retrieve_with_threshold search top_k_results query k t = [])
  /\ retrieve_with_threshold search top_k_results query k t
     = retrieve_with_threshold
         (fun q n => List.filter (fun r => negb (isnan r.2)) (search q n))
         top_k_results query k t.
Proof.
  unfold retrieve_with_threshold, retrieve_with_scores.
  generalize (search query
                (k_or_default top_k_results
                   (Some (k_or_default top_k_results k)))) as results.
  intros results. split.
  - intros Ht. induction results as [|[d score] results IH]; [reflexivity|].
    simpl. rewrite float_ge_nan_r by exact Ht. exact IH.
  - induction results as [|[d score] results IH]; [reflexivity|].
    simpl. destruct (isnan score) eqn:Hn; simpl.
    + rewrite float_ge_nan_l by exact Hn. exact IH.
    + destruct (float_ge score t); [f_equal|]; exact IH.
Qed.

(** X28 at a NaN threshold and one result. *)
Lemma retrieve_with_threshold_nan_witness :
  retrieve_with_threshold
    (fun _ _ => [ ({| page_content := u "x"; metadata := ∅ |}, 1%float) ])
    4 (u "q") None nan
  = [].
Proof.
  apply (proj1 (retrieve_with_threshold_nan
                  (fun _ _ => [ ({| page_content := u "x"; metadata := ∅ |},
                                 1%float) ])
                  4 (u "q") None nan)).
  reflexivity.
Defined.

End ThresholdNaN.
